(** * Luxottica churn utilities: file helpers and logger set-up

    A shallow embedding of [src/luxottica_churn/utils/common.py] and
    [src/luxottica_churn/utils/logger.py].

    The helpers are thin wrappers around the Python standard library,
    PyYAML, python-box, joblib and pandas.  The embedding keeps the
    control flow of every wrapper (the order of the calls, the guards,
    the [try]/[except] blocks, the log calls) and threads two pieces of
    state through them: the file tree and the list of log records that
    were emitted.  What a third-party call computes on the text of a file
    (parsing YAML, printing JSON, pickling, CSV) is a field of the
    [Libraries] class; the wrappers are stated against any instance. *)

From Stdlib Require Import ZArith String Ascii List Lia Bool.
From stdpp Require Import gmap strings list pretty.

Set Warnings "-register-all".

Local Open Scope string_scope.
Local Open Scope Z_scope.

(** ** Python values *)

(** Hashable scalars: dictionary keys and column labels. *)
Inductive scalar :=
| SNone
| SBool (b : bool)
| SInt (z : Z)
| SStr (s : string).

(** The objects the helpers pass around: what [yaml.safe_load] and
    [json.load] build, plus [PObj] for any other object (a fitted model,
    a set, ...), of which only the identity is kept.  Floats are left
    out. *)
Inductive pyval :=
| PNone
| PBool (b : bool)
| PInt (z : Z)
| PStr (s : string)
| PList (l : list pyval)
| PDict (kvs : list (scalar * pyval))
| PObj (id : N).

(** A [dict] keeps its items in insertion order. *)
Abbreviation dict := (list (scalar * pyval)).

(** Python compares and hashes [True] as [1] and [False] as [0]: an
    [atom] is a scalar up to that identification, the element type of a
    [set] of labels. *)
Inductive atom :=
| ANone
| AInt (z : Z)
| AStr (s : string)
| AObj (id : N).

#[global] Instance atom_eq_dec : EqDecision atom.
Proof. solve_decision. Defined.

Definition atom_code (a : atom) : (unit + N) + (Z + string) :=
  match a with
  | ANone => inl (inl tt)
  | AObj id => inl (inr id)
  | AInt z => inr (inl z)
  | AStr s => inr (inr s)
  end.

Definition atom_decode (c : (unit + N) + (Z + string)) : atom :=
  match c with
  | inl (inl _) => ANone
  | inl (inr id) => AObj id
  | inr (inl z) => AInt z
  | inr (inr s) => AStr s
  end.

#[global] Instance atom_countable : Countable atom.
Proof.
  apply (inj_countable' atom_code atom_decode).
  intros []; reflexivity.
Defined.

Definition atom_of (k : scalar) : atom :=
  match k with
  | SNone => ANone
  | SBool b => AInt (Z.b2z b)
  | SInt z => AInt z
  | SStr s => AStr s
  end.

(** [k1 == k2] on scalars. *)
Definition scalar_eqb (k1 k2 : scalar) : bool :=
  bool_decide (atom_of k1 = atom_of k2).

(** [bool(v)]: the test behind [if not content] and [if metadata]. *)
Definition truthy (v : pyval) : bool :=
  match v with
  | PNone => false
  | PBool b => b
  | PInt z => negb (z =? 0)
  | PStr s => negb (String.eqb s "")
  | PList l => match l with [] => false | _ => true end
  | PDict kvs => match kvs with [] => false | _ => true end
  | PObj _ => true
  end.

(** [d[k]] / [k in d]: the first item whose key equals [k]. *)
Fixpoint dict_get (k : scalar) (d : dict) : option pyval :=
  match d with
  | [] => None
  | (k', v) :: d' => if scalar_eqb k' k then Some v else dict_get k d'
  end.

(** [d[k] = v]: overwrite in place, or append a new item. *)
Fixpoint dict_set (k : scalar) (v : pyval) (d : dict) : dict :=
  match d with
  | [] => [(k, v)]
  | (k', v') :: d' =>
      if scalar_eqb k' k then (k', v) :: d' else (k', v') :: dict_set k v d'
  end.

(** [dict(pairs)]: later pairs win. *)
Definition dict_of_pairs (pairs : list (scalar * pyval)) : dict :=
  fold_left (fun d kv => dict_set kv.1 kv.2 d) pairs [].

(** ** Paths, exceptions, results *)

(** A [pathlib.Path] is its tuple of parts; the empty tuple is
    [Path('.')].  All paths are taken relative to one directory. *)
Abbreviation path := (list string).



Inductive exn :=
| FileNotFoundError (p : path)
| FileExistsError (p : path)
| IsADirectoryError (p : path)
| NotADirectoryError (p : path)
| OverflowError (msg : string)
| TypeError (msg : string)
| AttributeError (msg : string)
| KeyError (key : string)
| ValueError (msg : string)
| SchemaValueError (missing : gset atom)
    (* ValueError(f"Schema validation failed. Missing: {missing_cols}") *)
| BoxValueError (msg : string)
| BoxKeyError (attr : string)
| YAMLError (msg : string)
| JSONDecodeError (msg : string)
| UnpicklingError (msg : string)
| ParserError (msg : string).

(** [isinstance(e, ValueError)] *)
Definition is_ValueError (e : exn) : bool :=
  match e with
  | ValueError _ | SchemaValueError _ | BoxValueError _
  | JSONDecodeError _ | ParserError _ => true
  | _ => false
  end.

Definition is_FileExistsError (e : exn) : bool :=
  match e with
  | FileExistsError _ => true
  | _ => false
  end.

Inductive result (A : Type) :=
| Ok (a : A)
| Raise (e : exn).
Arguments Ok {A} a.
Arguments Raise {A} e.

(** ** The file tree *)

Inductive node :=
| Dir
| File (content : string).

Abbreviation tree := (gmap (list string) node).

(** The directory the paths are relative to always exists. *)
Definition fs_lookup (fs : tree) (p : path) : option node :=
  match p with
  | [] => Some Dir
  | _ => fs !! p
  end.

Definition exists_ (fs : tree) (p : path) : bool :=
  match fs_lookup fs p with
  | Some _ => true
  | None => false
  end.

Definition isdir (fs : tree) (p : path) : bool :=
  match fs_lookup fs p with
  | Some Dir => true
  | _ => false
  end.

(** [os.path.split]: the head of a path. *)
Definition parent (p : path) : path := removelast p.

(** [os.mkdir]: the parent is resolved first, then the name must be
    free. *)
Definition mkdir (p : path) (fs : tree) : result tree :=
  match fs_lookup fs (parent p) with
  | None => Raise (FileNotFoundError p)
  | Some (File _) => Raise (NotADirectoryError p)
  | Some Dir =>
      match fs_lookup fs p with
      | Some _ => Raise (FileExistsError p)
      | None => Ok (<[p := Dir]> fs)
      end
  end.

(** The tail of [os.makedirs(name, exist_ok=True)]:
    [try: mkdir(name) except OSError: if not path.isdir(name): raise]. *)
Definition mkdir_exist_ok (p : path) (fs : tree) : result unit * tree :=
  match mkdir p fs with
  | Ok fs' => (Ok tt, fs')
  | Raise e => if isdir fs p then (Ok tt, fs) else (Raise e, fs)
  end.

(** [os.makedirs(name, exist_ok=True)] on the reversed parts of [name]
    (tail first), so that the recursion on the head is structural.  A
    [FileExistsError] of the recursive call is passed over, any other
    error propagates. *)
Fixpoint makedirs_rev (rp : list string) (fs : tree) : result unit * tree :=
  match rp with
  | [] => mkdir_exist_ok [] fs
  | tail :: rhead =>
      let name := rev (tail :: rhead) in
      let head := rev rhead in
      let '(r, fs1) :=
        if negb (bool_decide (rhead = [])) && negb (exists_ fs head) then
          match makedirs_rev rhead fs with
          | (Raise e, fs') =>
              if is_FileExistsError e then (Ok tt, fs') else (Raise e, fs')
          | ok => ok
          end
        else (Ok tt, fs) in
      match r with
      | Raise e => (Raise e, fs1)
      | Ok _ => mkdir_exist_ok name fs1
      end
  end.

Definition makedirs (p : path) (fs : tree) : result unit * tree :=
  makedirs_rev (rev p) fs.

(** [open(path, 'w')]: create or truncate. *)
Definition open_w (p : path) (fs : tree) : result tree :=
  match fs_lookup fs (parent p) with
  | None => Raise (FileNotFoundError p)
  | Some (File _) => Raise (NotADirectoryError p)
  | Some Dir =>
      match fs_lookup fs p with
      | Some Dir => Raise (IsADirectoryError p)
      | _ => Ok (<[p := File ""]> fs)
      end
  end.

(** [open(path, 'r').read()] *)
Definition read_file (p : path) (fs : tree) : result string :=
  match fs_lookup fs p with
  | None => Raise (FileNotFoundError p)
  | Some Dir => Raise (IsADirectoryError p)
  | Some (File c) => Ok c
  end.

(** [f.write(text)] on a file opened for writing. *)
Definition append_file (p : path) (text : string) (fs : tree) : tree :=
  match fs !! p with
  | Some (File c) => <[p := File (c +:+ text)]> fs
  | _ => fs
  end.

(** ** JSON documents *)

Inductive json :=
| JNull
| JBool (b : bool)
| JInt (z : Z)
| JStr (s : string)
| JArr (items : list json)
| JObj (members : list (string * json)).

(** The member name [json.dump] writes for a dictionary key: strings as
    they are, the other scalars through their JSON spelling. *)
Definition json_key (k : scalar) : string :=
  match k with
  | SNone => "null"
  | SBool true => "true"
  | SBool false => "false"
  | SInt z => pretty z
  | SStr s => s
  end.

(** [f] over a list, stopping at the first exception. *)
Definition mapR {A B} (f : A -> result B) : list A -> result (list B) :=
  fix go (l : list A) : result (list B) :=
    match l with
    | [] => Ok []
    | x :: l' =>
        match f x with
        | Raise e => Raise e
        | Ok y =>
            match go l' with
            | Raise e => Raise e
            | Ok ys => Ok (y :: ys)
            end
        end
    end.

(** The document [json.dump] serialises for an object, or the
    [TypeError] of its encoder. *)
Fixpoint to_json (v : pyval) : result json :=
  match v with
  | PNone => Ok JNull
  | PBool b => Ok (JBool b)
  | PInt z => Ok (JInt z)
  | PStr s => Ok (JStr s)
  | PList l =>
      match mapR to_json l with
      | Raise e => Raise e
      | Ok items => Ok (JArr items)
      end
  | PDict kvs =>
      match mapR (fun kv =>
                    match to_json kv.2 with
                    | Raise e => Raise e
                    | Ok j => Ok (json_key kv.1, j)
                    end) kvs with
      | Raise e => Raise e
      | Ok members => Ok (JObj members)
      end
  | PObj _ => Raise (TypeError "Object is not JSON serializable")
  end.

(** The object [json.load] builds from a document. *)
Fixpoint of_json (j : json) : pyval :=
  match j with
  | JNull => PNone
  | JBool b => PBool b
  | JInt z => PInt z
  | JStr s => PStr s
  | JArr items => PList (map of_json items)
  | JObj members =>
      PDict (dict_of_pairs (map (fun m => (SStr m.1, of_json m.2)) members))
  end.

#[global] Instance scalar_eq_dec : EqDecision scalar.
Proof. solve_decision. Defined.


(** Objects that JSON represents as they are: [None], booleans, ints,
    strings, lists of such, and dictionaries of such whose keys are
    strings (pairwise different, as the keys of a [dict] are). *)
Fixpoint json_faithful (v : pyval) : bool :=
  match v with
  | PNone | PBool _ | PInt _ | PStr _ => true
  | PList l => forallb json_faithful l
  | PDict kvs =>
      forallb (fun kv =>
                 match kv.1 with
                 | SStr _ => json_faithful kv.2
                 | _ => false
                 end) kvs
      && bool_decide (NoDup (atom_of <$> kvs.*1))
  | PObj _ => false
  end.

(** ** Data frames *)

Abbreviation dtype := string.
Abbreviation kwargs := (list (string * pyval)).

(** A [pandas.DataFrame] with string column labels: the labels with the
    dtype of each column, the index and the rows. *)
Record DataFrame := {
  df_columns : list (string * dtype);
  df_index : list scalar;
  df_rows : list (list scalar)
}.

(** [df.shape] *)
Definition df_shape (df : DataFrame) : nat * nat :=
  (length (df_rows df), length (df_columns df)).

(** [col in df.columns] *)
Definition in_columns (col : scalar) (df : DataFrame) : bool :=
  match col with
  | SStr s => bool_decide (s ∈ (df_columns df).*1)
  | _ => false
  end.

(** [df[col].dtype]: a label that occurs once selects a [Series]; one
    that occurs several times selects a [DataFrame], which has no
    [dtype] attribute. *)
Definition column_dtype (col : scalar) (df : DataFrame) : result dtype :=
  match col with
  | SStr s =>
      match filter (fun c => c.1 = s) (df_columns df) with
      | [] => Raise (KeyError s)
      | [c] => Ok c.2
      | _ => Raise (AttributeError "'DataFrame' object has no attribute 'dtype'")
      end
  | _ => Raise (KeyError (json_key col))
  end.

(** ** Floats of [get_size] *)

(** A finite non-negative double, [mant * 2 ^ expo]. *)
Record float := { mant : Z; expo : Z }.

(** [num / den] rounded to the nearest integer, ties to even *)
Definition round_half_even (num den : Z) : Z :=
  let q := num / den in
  let r := num mod den in
  if 2 * r <? den then q
  else if den <? 2 * r then q + 1
  else if Z.even q then q else q + 1.

(** [n / d] on ints (true division) for [0 <= n] and [0 < d], the only
    operands [get_size] has: the double nearest to the quotient, with a
    53-bit significand; results below the normal range do not occur for
    these operands. *)
Definition truediv (n d : Z) : result float :=
  if n =? 0 then Ok {| mant := 0; expo := 0 |}
  else
    let scaled (e : Z) : Z * Z :=
      if 0 <=? e then (n, d * 2 ^ e) else (n * 2 ^ (- e), d) in
    let e0 := Z.log2 n - Z.log2 d - 52 in
    let e := if (scaled e0).1 / (scaled e0).2 <? 2 ^ 52 then e0 - 1 else e0 in
    let m := round_half_even (scaled e).1 (scaled e).2 in
    if (0 <=? e) && (2 ^ 1024 <=? m * 2 ^ e)
    then Raise (OverflowError "integer division result too large for a float")
    else Ok {| mant := m; expo := e |}.

(** The value of a float in hundredths, rounded half to even. *)
Definition hundredths (x : float) : Z :=
  if 0 <=? expo x then mant x * 2 ^ expo x * 100
  else round_half_even (mant x * 100) (2 ^ (- expo x)).

Definition two_digits (d : Z) : string :=
  if d <? 10 then "0" +:+ pretty d else pretty d.

(** The decimal notation of [h] hundredths, with two decimals. *)
Definition fixed2 (h : Z) : string :=
  pretty (h / 100) +:+ "." +:+ two_digits (h mod 100).

(** [f"{x:.2f}"] *)
Definition format_2f (x : float) : string := fixed2 (hundredths x).

(** ** Third-party calls *)

(** What the libraries compute on the text of a file.  A writer gives
    the text it has written and the exception it ended with, if any. *)
Class Libraries := {
  (** [yaml.safe_load] on the text of a stream *)
  yaml_safe_load : string -> result pyval;
  (** the text [json.dump(_, f, indent=indent)] writes for a document *)
  json_text : Z -> json -> string;
  (** the text [json.dump] has written when its encoder raises *)
  json_text_partial : Z -> pyval -> string;
  (** the parser of [json.load] *)
  json_parse : string -> result json;
  (** [joblib.dump]: the bytes written for an object *)
  joblib_dump : pyval -> string * option exn;
  (** [joblib.load] on the bytes of a file *)
  joblib_load : string -> result pyval;
  (** [DataFrame.to_csv(path, **kwargs)] *)
  to_csv : kwargs -> DataFrame -> string * option exn;
  (** [pd.read_csv(path, **kwargs)] on the text of the file *)
  read_csv : kwargs -> string -> result DataFrame;
  (** [pd.api.types.is_dtype_equal]; it returns a boolean on every pair *)
  is_dtype_equal : dtype -> pyval -> bool;
  (** [ConfigBox(content)] where [content] is not a mapping *)
  box_of_nonmapping : pyval -> result dict;
  (** attribute access on a [ConfigBox] that has no such key: the
      converted-key look-ups of python-box, then [BoxKeyError] *)
  box_missing_attr : dict -> string -> result pyval;
  (** [st_size] of a directory *)
  dir_st_size : path -> N
}.

(** ** Log records and program state *)

Inductive level := DEBUG | INFO | WARNING | ERROR | CRITICAL.

(** The f-strings handed to the logger, by call site. *)
Inductive message :=
| YamlLoaded (p : path)
| YamlReadError (p : path) (e : exn)
| CreatedDirectory (p : path)
| JsonSaved (p : path) (size : string)
| JsonLoaded (p : path)
| BinarySaved (p : path) (size : string)
| BinaryLoaded (p : path)
| CsvLoaded (p : path) (shape : nat * nat)
| CsvSaved (p : path) (size : string)
| MissingColumns (missing : gset atom)
| DtypeMismatch (col : scalar) (actual : dtype) (expected : pyval)
| SchemaPassed
| ModelMetadataSaved (p : path)
| ModelMetadata (box : dict).

(** The file tree and the records emitted so far, oldest first. *)
Record state := {
  st_fs : tree;
  st_log : list (level * message)
}.

(** A computation that reads and writes the state and returns a value
    or raises. *)
Definition M (A : Type) : Type := state -> result A * state.

Definition ret {A} (a : A) : M A := fun st => (Ok a, st).

Definition raise {A} (e : exn) : M A := fun st => (Raise e, st).

Definition bind {A B} (m : M A) (k : A -> M B) : M B :=
  fun st =>
    match m st with
    | (Ok a, st') => k a st'
    | (Raise e, st') => (Raise e, st')
    end.

Notation "x <- m ;; k" := (bind m (fun x => k))
  (at level 100, m at next level, right associativity).
Notation "m ;;; k" := (bind m (fun _ => k))
  (at level 100, right associativity).

(** [try: body except Exception as e: handler] *)
Definition try_except {A} (body : M A) (handler : exn -> M A) : M A :=
  fun st =>
    match body st with
    | (Ok a, st') => (Ok a, st')
    | (Raise e, st') => handler e st'
    end.

Definition lift {A} (r : result A) : M A := fun st => (r, st).

Definition with_fs (fs : tree) (st : state) : state :=
  {| st_fs := fs; st_log := st_log st |}.

(** run a step that may replace the tree *)
Definition fs_update (f : tree -> result tree) : M unit :=
  fun st =>
    match f (st_fs st) with
    | Ok fs' => (Ok tt, with_fs fs' st)
    | Raise e => (Raise e, st)
    end.

(** run a step that reads the tree *)
Definition fs_read {A} (f : tree -> result A) : M A :=
  fun st => (f (st_fs st), st).

Definition log (lvl : level) (msg : message) : M unit :=
  fun st => (Ok tt, {| st_fs := st_fs st; st_log := st_log st ++ [(lvl, msg)] |}).

Definition logger_info := log INFO.
Definition logger_warning := log WARNING.
Definition logger_error := log ERROR.

(** a writer's outcome stored in the file opened at [p] *)
Definition write_out (p : path) (out : string * option exn) : M unit :=
  fun st =>
    let st' := with_fs (append_file p out.1 (st_fs st)) st in
    match out.2 with
    | None => (Ok tt, st')
    | Some e => (Raise e, st')
    end.

(** [os.makedirs(p, exist_ok=True)] as a step *)
Definition os_makedirs (p : path) : M unit :=
  fun st => let '(r, fs') := makedirs p (st_fs st) in (r, with_fs fs' st).

(** [hash(v)] for an element of a set *)
Definition hashable (v : pyval) : result atom :=
  match v with
  | PNone => Ok ANone
  | PBool b => Ok (AInt (Z.b2z b))
  | PInt z => Ok (AInt z)
  | PStr s => Ok (AStr s)
  | PObj id => Ok (AObj id)
  | PList _ => Raise (TypeError "unhashable type: 'BoxList'")
  | PDict _ => Raise (TypeError "unhashable type: 'ConfigBox'")
  end.

Fixpoint set_of_list (l : list pyval) : result (gset atom) :=
  match l with
  | [] => Ok ∅
  | x :: l' =>
      match hashable x with
      | Raise e => Raise e
      | Ok a =>
          match set_of_list l' with
          | Raise e => Raise e
          | Ok s => Ok ({[a]} ∪ s)
          end
      end
  end.

(** [set(v)]: the elements of a list, the characters of a string, the
    keys of a mapping; other values are not iterable. *)
Definition py_set (v : pyval) : result (gset atom) :=
  match v with
  | PList l => set_of_list l
  | PStr s =>
      Ok (list_to_set ((fun c => AStr (String c "")) <$> list_ascii_of_string s))
  | PDict d => Ok (list_to_set (atom_of <$> d.*1))
  | _ => Raise (TypeError "object is not iterable")
  end.

(** [set(df.columns)] *)
Definition columns_set (df : DataFrame) : gset atom :=
  list_to_set (AStr <$> (df_columns df).*1).

(** [v.items()] *)
Definition dict_items (v : pyval) : result (list (scalar * pyval)) :=
  match v with
  | PDict d => Ok d
  | _ => Raise (AttributeError "object has no attribute 'items'")
  end.

(** [Path(f"{p}{suffix}")] for a suffix without separator: the suffix
    lands on the last part; [str(Path('.'))] is ["."]. *)
Definition path_fstring (p : path) (suffix : string) : path :=
  match rev p with
  | [] => ["." +:+ suffix]
  | last :: rinit => rev rinit ++ [last +:+ suffix]
  end.

(** ** common.py *)

Section Common.
Context `{L : Libraries}.

(** [os.path.getsize] *)
Definition getsize (p : path) : M Z :=
  fs_read (fun fs =>
    match fs_lookup fs p with
    | None => Raise (FileNotFoundError p)
    | Some Dir => Ok (Z.of_N (dir_st_size p))
    | Some (File c) => Ok (Z.of_nat (String.length c))
    end).

Definition get_size (p : path) : M string :=
  size_bytes <- getsize p ;;
  if size_bytes <? 1024 then
    ret (pretty size_bytes +:+ " B")
  else if size_bytes <? 1024 ^ 2 then
    x <- lift (truediv size_bytes 1024) ;;
    ret (format_2f x +:+ " KB")
  else
    x <- lift (truediv size_bytes (1024 ^ 2)) ;;
    ret (format_2f x +:+ " MB").

(** [ConfigBox(content)] *)
Definition ConfigBox (content : pyval) : result dict :=
  match content with
  | PDict d => Ok d
  | _ => box_of_nonmapping content
  end.

(** [box.attr] *)
Definition box_getattr (box : dict) (attr : string) : result pyval :=
  match dict_get (SStr attr) box with
  | Some v => Ok v
  | None => box_missing_attr box attr
  end.

(** The body of the [try] block of [read_yaml]. *)
Definition read_yaml_body (path_to_yaml : path) : M dict :=
  text <- fs_read (read_file path_to_yaml) ;;
  content <- lift (yaml_safe_load text) ;;
  if negb (truthy content) then
    raise (BoxValueError "YAML file is empty")
  else
    logger_info (YamlLoaded path_to_yaml) ;;;
    lift (ConfigBox content).

Definition read_yaml (path_to_yaml : path) : M dict :=
  try_except (read_yaml_body path_to_yaml)
    (fun e =>
       logger_error (YamlReadError path_to_yaml e) ;;;
       raise e).

Fixpoint create_directories (path_to_directories : list path) (verbose : bool)
  : M unit :=
  match path_to_directories with
  | [] => ret tt
  | p :: rest =>
      os_makedirs p ;;;
      (if verbose then logger_info (CreatedDirectory p) else ret tt) ;;;
      create_directories rest verbose
  end.

(** [json.dump(data, f, indent=indent)] on the file opened at [p] *)
Definition json_dump (data : pyval) (p : path) (indent : Z) : M unit :=
  match to_json data with
  | Ok doc => write_out p (json_text indent doc, None)
  | Raise e => write_out p (json_text_partial indent data, Some e)
  end.

Definition save_json (p : path) (data : dict) (indent : Z) : M unit :=
  fs_update (open_w p) ;;;
  json_dump (PDict data) p indent ;;;
  size <- get_size p ;;
  logger_info (JsonSaved p size).

(** [json.load(f)] *)
Definition json_load (p : path) : M pyval :=
  text <- fs_read (read_file p) ;;
  doc <- lift (json_parse text) ;;
  ret (of_json doc).

Definition load_json (p : path) : M dict :=
  content <- json_load p ;;
  logger_info (JsonLoaded p) ;;;
  lift (ConfigBox content).

Definition save_bin (data : pyval) (p : path) : M unit :=
  fs_update (open_w p) ;;;
  write_out p (joblib_dump data) ;;;
  size <- get_size p ;;
  logger_info (BinarySaved p size).

Definition load_bin (p : path) : M pyval :=
  bytes <- fs_read (read_file p) ;;
  data <- lift (joblib_load bytes) ;;
  logger_info (BinaryLoaded p) ;;;
  ret data.

Definition load_csv (p : path) (kw : kwargs) : M DataFrame :=
  text <- fs_read (read_file p) ;;
  df <- lift (read_csv kw text) ;;
  logger_info (CsvLoaded p (df_shape df)) ;;;
  ret df.

Definition save_csv (data : DataFrame) (p : path) (kw : kwargs) : M unit :=
  fs_update (open_w p) ;;;
  write_out p (to_csv kw data) ;;;
  size <- get_size p ;;
  logger_info (CsvSaved p size).

(** The loop [for col, dtype in schema.dtypes.items()]. *)
Fixpoint check_dtypes (df : DataFrame) (items : list (scalar * pyval)) : M unit :=
  match items with
  | [] => ret tt
  | (col, expected) :: rest =>
      (if in_columns col df then
         actual <- lift (column_dtype col df) ;;
         if negb (is_dtype_equal actual expected) then
           logger_warning (DtypeMismatch col actual expected)
         else ret tt
       else ret tt) ;;;
      check_dtypes df rest
  end.

Definition validate_data_schema (df : DataFrame) (schema_path : path) : M bool :=
  schema <- read_yaml schema_path ;;
  required_columns <- lift (box_getattr schema "required_columns") ;;
  required <- lift (py_set required_columns) ;;
  let missing_cols := required ∖ columns_set df in
  if negb (bool_decide (missing_cols = ∅)) then
    logger_error (MissingColumns missing_cols) ;;;
    raise (SchemaValueError missing_cols)
  else
    dtypes <- lift (box_getattr schema "dtypes") ;;
    items <- lift (dict_items dtypes) ;;
    check_dtypes df items ;;;
    logger_info SchemaPassed ;;;
    ret true.

(** [Path(f"{path}.metadata.json")] *)
Definition metadata_path (p : path) : path := path_fstring p ".metadata.json".

(** [metadata] is a dictionary or [None]; [if metadata:] holds for a
    dictionary with at least one item. *)
Definition save_model (model : pyval) (p : path) (metadata : option dict)
  : M unit :=
  save_bin model p ;;;
  match metadata with
  | Some d =>
      if truthy (PDict d) then
        save_json (metadata_path p) d 4 ;;;
        logger_info (ModelMetadataSaved (metadata_path p))
      else ret tt
  | None => ret tt
  end.

Definition load_model (p : path) : M pyval :=
  model <- load_bin p ;;
  found <- fs_read (fun fs => Ok (exists_ fs (metadata_path p))) ;;
  (if found then
     metadata <- load_json (metadata_path p) ;;
     logger_info (ModelMetadata metadata)
   else ret tt) ;;;
  ret model.

End Common.

(** ** logger.py *)

(** [datetime.now()], as far as [setup_logger] reads it. *)
Record date := { year : Z; month : Z; day : Z }.

(** [strftime('%Y-%m-%d')] for a four-digit year *)
Definition strftime_Ymd (d : date) : string :=
  pretty (year d) +:+ "-" +:+ two_digits (month d) +:+ "-" +:+ two_digits (day d).

Inductive handler :=
| RotatingFileHandler (filename : path) (maxBytes backupCount : Z)
    (encoding formatter : string)
| StreamHandler (stream formatter : string).

Record Logger := {
  logger_name : string;
  logger_level : Z;
  logger_handlers : list handler
}.

(** [open(path, 'a')]: what the file handler does when it is built. *)
Definition open_a (p : path) (fs : tree) : result tree :=
  match fs_lookup fs (parent p) with
  | None => Raise (FileNotFoundError p)
  | Some (File _) => Raise (NotADirectoryError p)
  | Some Dir =>
      match fs_lookup fs p with
      | Some Dir => Raise (IsADirectoryError p)
      | Some (File _) => Ok fs
      | None => Ok (<[p := File ""]> fs)
      end
  end.

Definition log_format : string :=
  "[%(asctime)s] [%(levelname)s] [%(module)s.%(funcName)s:%(lineno)d] - %(message)s".

(** [now] is the value of [datetime.now()] during the call.  The
    handlers a logger of that name had before are cleared, so the
    result has the new handlers only. *)
Definition setup_logger (name : string) (log_level : Z) (log_dir : path)
    (console_output : bool) (max_log_size backup_count : Z) (now : date)
  : M Logger :=
  os_makedirs log_dir ;;;
  let log_filename := strftime_Ymd now +:+ ".log" in
  let log_filepath := (log_dir ++ [log_filename])%list in
  fs_update (open_a log_filepath) ;;;
  let file_handler :=
    RotatingFileHandler log_filepath (max_log_size * 1024 * 1024) backup_count
      "utf-8" log_format in
  ret {| logger_name := name;
         logger_level := log_level;
         logger_handlers :=
           file_handler ::
           (if console_output then [StreamHandler "stdout" log_format] else []) |}.

(** ** A reference instance of the libraries

    Executable stand-ins used to run the helpers on concrete inputs:
    JSON text as [json.dump] lays it out, a parser for it, and YAML
    restricted to its flow style, which is JSON (the [__main__] block of
    common.py reads with [read_yaml] a file it wrote with [save_json]).
    Floats are outside the fragment. *)
Module Ref.

Definition dquote : ascii := "034"%char.
Definition newline : ascii := "010"%char.

Definition hex_digit (n : N) : ascii :=
  nth (N.to_nat n) (list_ascii_of_string "0123456789abcdef") "0"%char.

(** [ensure_ascii=True] escaping of one character *)
Definition escape_char (c : ascii) : string :=
  let n := N_of_ascii c in
  if Ascii.eqb c dquote then String "\" (String dquote "")
  else if Ascii.eqb c "\" then "\\"
  else if (n =? 10)%N then "\n"
  else if (n =? 13)%N then "\r"
  else if (n =? 9)%N then "\t"
  else if (n =? 8)%N then "\b"
  else if (n =? 12)%N then "\f"
  else if (n <? 32)%N || (127 <? n)%N then
    "\u00" +:+ String (hex_digit (n / 16)) (String (hex_digit (n mod 16)) "")
  else String c "".

Fixpoint escape (s : string) : string :=
  match s with
  | EmptyString => ""
  | String c s' => escape_char c +:+ escape s'
  end.

Definition quote (s : string) : string :=
  String dquote (escape s) +:+ String dquote "".

Fixpoint spaces (n : nat) : string :=
  match n with
  | O => ""
  | S n' => String " " (spaces n')
  end.

(** the line break before an item at nesting depth [depth] *)
Definition break (indent : Z) (depth : nat) : string :=
  String newline (spaces (Z.to_nat indent * depth)).

Fixpoint join (sep : string) (l : list string) : string :=
  match l with
  | [] => ""
  | [x] => x
  | x :: l' => x +:+ sep +:+ join sep l'
  end.

Fixpoint print (indent : Z) (depth : nat) (j : json) : string :=
  match j with
  | JNull => "null"
  | JBool true => "true"
  | JBool false => "false"
  | JInt z => pretty z
  | JStr s => quote s
  | JArr [] => "[]"
  | JArr items =>
      "[" +:+ break indent (S depth)
      +:+ join ("," +:+ break indent (S depth)) (map (print indent (S depth)) items)
      +:+ break indent depth +:+ "]"
  | JObj [] => "{}"
  | JObj members =>
      "{" +:+ break indent (S depth)
      +:+ join ("," +:+ break indent (S depth))
            (map (fun m => quote m.1 +:+ ": " +:+ print indent (S depth) m.2) members)
      +:+ break indent depth +:+ "}"
  end.

Definition json_text (indent : Z) (doc : json) : string := print indent 0 doc.

(** *** Parser *)

Definition is_ws (c : ascii) : bool :=
  let n := N_of_ascii c in
  (n =? 32)%N || (n =? 10)%N || (n =? 13)%N || (n =? 9)%N.

Fixpoint skip_ws (s : list ascii) : list ascii :=
  match s with
  | c :: s' => if is_ws c then skip_ws s' else s
  | [] => []
  end.

Definition digit_of (c : ascii) : option Z :=
  let n := N_of_ascii c in
  if (48 <=? n)%N && (n <=? 57)%N then Some (Z.of_N (n - 48)) else None.

Fixpoint take_digits (s : list ascii) : list Z * list ascii :=
  match s with
  | c :: s' =>
      match digit_of c with
      | Some d => let '(ds, rest) := take_digits s' in (d :: ds, rest)
      | None => ([], s)
      end
  | [] => ([], [])
  end.

Definition number_of (ds : list Z) : option Z :=
  match ds with
  | [] => None
  | [d] => Some d
  | 0 :: _ => None
  | _ => Some (fold_left (fun acc d => 10 * acc + d) ds 0)
  end.

Definition parse_int (s : list ascii) : option (Z * list ascii) :=
  match s with
  | "-"%char :: s' =>
      let '(ds, rest) := take_digits s' in
      match number_of ds with
      | Some n => Some (- n, rest)
      | None => None
      end
  | _ =>
      let '(ds, rest) := take_digits s in
      match number_of ds with
      | Some n => Some (n, rest)
      | None => None
      end
  end.

Definition hex_of (c : ascii) : option N :=
  let n := N_of_ascii c in
  if (48 <=? n)%N && (n <=? 57)%N then Some (n - 48)%N
  else if (97 <=? n)%N && (n <=? 102)%N then Some (n - 87)%N
  else if (65 <=? n)%N && (n <=? 70)%N then Some (n - 55)%N
  else None.

(** the characters of a string literal after its opening quote *)
Fixpoint parse_chars (s : list ascii) : option (string * list ascii) :=
  match s with
  | [] => None
  | c :: s' =>
      if Ascii.eqb c dquote then Some ("", s')
      else if Ascii.eqb c "\" then
        match s' with
        | "u"%char :: "0"%char :: "0"%char :: h :: l :: s'' =>
            match hex_of h, hex_of l, parse_chars s'' with
            | Some h, Some l, Some (str, rest) =>
                Some (String (ascii_of_N (16 * h + l)) str, rest)
            | _, _, _ => None
            end
        | e :: s'' =>
            let plain (c : ascii) :=
              match parse_chars s'' with
              | Some (str, rest) => Some (String c str, rest)
              | None => None
              end in
            if Ascii.eqb e dquote then plain dquote
            else if Ascii.eqb e "\" then plain "\"%char
            else if Ascii.eqb e "/" then plain "/"%char
            else if Ascii.eqb e "n" then plain newline
            else if Ascii.eqb e "r" then plain "013"%char
            else if Ascii.eqb e "t" then plain "009"%char
            else if Ascii.eqb e "b" then plain "008"%char
            else if Ascii.eqb e "f" then plain "012"%char
            else None
        | [] => None
        end
      else if (N_of_ascii c <? 32)%N then None
      else
        match parse_chars s' with
        | Some (str, rest) => Some (String c str, rest)
        | None => None
        end
  end.

Definition starts_with (pre : string) (s : list ascii) : option (list ascii) :=
  let p := list_ascii_of_string pre in
  if bool_decide (take (length p) s = p) then Some (drop (length p) s) else None.

Section Loops.
Variable value : list ascii -> option (json * list ascii).

(** the items of an array after the first one, up to the bracket *)
Fixpoint more_items (n : nat) (s : list ascii) : option (list json * list ascii) :=
  match n with
  | O => None
  | S n' =>
      match skip_ws s with
      | "]"%char :: rest => Some ([], rest)
      | ","%char :: s1 =>
          match value s1 with
          | Some (j, s2) =>
              match more_items n' s2 with
              | Some (js, rest) => Some (j :: js, rest)
              | None => None
              end
          | None => None
          end
      | _ => None
      end
  end.

Definition member (s : list ascii) : option ((string * json) * list ascii) :=
  match skip_ws s with
  | c :: s1 =>
      if Ascii.eqb c dquote then
        match parse_chars s1 with
        | Some (k, s2) =>
            match skip_ws s2 with
            | ":"%char :: s3 =>
                match value s3 with
                | Some (j, rest) => Some ((k, j), rest)
                | None => None
                end
            | _ => None
            end
        | None => None
        end
      else None
  | [] => None
  end.

Fixpoint more_members (n : nat) (s : list ascii)
  : option (list (string * json) * list ascii) :=
  match n with
  | O => None
  | S n' =>
      match skip_ws s with
      | "}"%char :: rest => Some ([], rest)
      | ","%char :: s1 =>
          match member s1 with
          | Some (m, s2) =>
              match more_members n' s2 with
              | Some (ms, rest) => Some (m :: ms, rest)
              | None => None
              end
          | None => None
          end
      | _ => None
      end
  end.

End Loops.

Fixpoint parse_value (fuel : nat) (s : list ascii) : option (json * list ascii) :=
  match fuel with
  | O => None
  | S fuel' =>
      let value := parse_value fuel' in
      match skip_ws s with
      | [] => None
      | c :: s1 =>
          if Ascii.eqb c dquote then
            match parse_chars s1 with
            | Some (str, rest) => Some (JStr str, rest)
            | None => None
            end
          else if Ascii.eqb c "[" then
            match skip_ws s1 with
            | "]"%char :: rest => Some (JArr [], rest)
            | _ =>
                match value s1 with
                | Some (j, s2) =>
                    match more_items value (length s2) s2 with
                    | Some (js, rest) => Some (JArr (j :: js), rest)
                    | None => None
                    end
                | None => None
                end
            end
          else if Ascii.eqb c "{" then
            match skip_ws s1 with
            | "}"%char :: rest => Some (JObj [], rest)
            | _ =>
                match member value s1 with
                | Some (m, s2) =>
                    match more_members value (length s2) s2 with
                    | Some (ms, rest) => Some (JObj (m :: ms), rest)
                    | None => None
                    end
                | None => None
                end
            end
          else
            match starts_with "null" (c :: s1), starts_with "true" (c :: s1),
                  starts_with "false" (c :: s1) with
            | Some rest, _, _ => Some (JNull, rest)
            | _, Some rest, _ => Some (JBool true, rest)
            | _, _, Some rest => Some (JBool false, rest)
            | _, _, _ =>
                match parse_int (c :: s1) with
                | Some (z, rest) => Some (JInt z, rest)
                | None => None
                end
            end
      end
  end.

Definition json_parse (text : string) : result json :=
  let s := list_ascii_of_string text in
  match parse_value (S (length s)) s with
  | Some (doc, rest) =>
      match skip_ws rest with
      | [] => Ok doc
      | _ => Raise (JSONDecodeError "Extra data")
      end
  | None => Raise (JSONDecodeError "Expecting value")
  end.

(** an empty stream loads as [None] *)
Definition yaml_safe_load (text : string) : result pyval :=
  match skip_ws (list_ascii_of_string text) with
  | [] => Ok PNone
  | _ =>
      match json_parse text with
      | Ok doc => Ok (of_json doc)
      | Raise _ => Raise (YAMLError "could not parse the stream")
      end
  end.

(** *** joblib: a self-delimiting byte format for objects *)

Definition ser_scalar (k : scalar) : string :=
  match k with
  | SNone => "N"
  | SBool true => "T"
  | SBool false => "F"
  | SInt z => "I" +:+ pretty z +:+ ";"
  | SStr s => "S" +:+ pretty (String.length s) +:+ ":" +:+ s
  end.

Fixpoint ser (v : pyval) : string :=
  match v with
  | PNone => "N"
  | PBool true => "T"
  | PBool false => "F"
  | PInt z => "I" +:+ pretty z +:+ ";"
  | PStr s => "S" +:+ pretty (String.length s) +:+ ":" +:+ s
  | PList l => "L" +:+ join "" (map ser l) +:+ "E"
  | PDict kvs => "D" +:+ join "" (map (fun kv => ser_scalar kv.1 +:+ ser kv.2) kvs) +:+ "E"
  | PObj id => "O" +:+ pretty id +:+ ";"
  end.

Definition unser_scalar (s : list ascii) : option (scalar * list ascii) :=
  match s with
  | "N"%char :: rest => Some (SNone, rest)
  | "T"%char :: rest => Some (SBool true, rest)
  | "F"%char :: rest => Some (SBool false, rest)
  | "I"%char :: s1 =>
      match parse_int s1 with
      | Some (z, ";"%char :: rest) => Some (SInt z, rest)
      | _ => None
      end
  | "S"%char :: s1 =>
      match parse_int s1 with
      | Some (n, ":"%char :: s2) =>
          if (Z.to_nat n <=? length s2)%nat then
            Some (SStr (string_of_list_ascii (take (Z.to_nat n) s2)),
                  drop (Z.to_nat n) s2)
          else None
      | _ => None
      end
  | _ => None
  end.

Definition pyval_of_scalar (k : scalar) : pyval :=
  match k with
  | SNone => PNone
  | SBool b => PBool b
  | SInt z => PInt z
  | SStr s => PStr s
  end.

Section Elements.
Variable value : list ascii -> option (pyval * list ascii).

Fixpoint elements (n : nat) (s : list ascii) : option (list pyval * list ascii) :=
  match n with
  | O => None
  | S n' =>
      match s with
      | "E"%char :: rest => Some ([], rest)
      | _ =>
          match value s with
          | Some (v, s1) =>
              match elements n' s1 with
              | Some (vs, rest) => Some (v :: vs, rest)
              | None => None
              end
          | None => None
          end
      end
  end.

Fixpoint entries (n : nat) (s : list ascii) : option (dict * list ascii) :=
  match n with
  | O => None
  | S n' =>
      match s with
      | "E"%char :: rest => Some ([], rest)
      | _ =>
          match unser_scalar s with
          | Some (k, s1) =>
              match value s1 with
              | Some (v, s2) =>
                  match entries n' s2 with
                  | Some (kvs, rest) => Some ((k, v) :: kvs, rest)
                  | None => None
                  end
              | None => None
              end
          | None => None
          end
      end
  end.

End Elements.

Fixpoint unser (fuel : nat) (s : list ascii) : option (pyval * list ascii) :=
  match fuel with
  | O => None
  | S fuel' =>
      match s with
      | "L"%char :: s1 =>
          match elements (unser fuel') (S (length s1)) s1 with
          | Some (vs, rest) => Some (PList vs, rest)
          | None => None
          end
      | "D"%char :: s1 =>
          match entries (unser fuel') (S (length s1)) s1 with
          | Some (kvs, rest) => Some (PDict kvs, rest)
          | None => None
          end
      | "O"%char :: s1 =>
          match parse_int s1 with
          | Some (z, ";"%char :: rest) => Some (PObj (Z.to_N z), rest)
          | _ => None
          end
      | _ =>
          match unser_scalar s with
          | Some (k, rest) => Some (pyval_of_scalar k, rest)
          | None => None
          end
      end
  end.

Definition joblib_dump (data : pyval) : string * option exn := (ser data, None).

Definition joblib_load (bytes : string) : result pyval :=
  let s := list_ascii_of_string bytes in
  match unser (S (length s)) s with
  | Some (v, []) => Ok v
  | _ => Raise (UnpicklingError "invalid load key")
  end.

(** *** pandas: CSV of frames whose cells hold no separator *)

Definition cell_text (c : scalar) : string :=
  match c with
  | SNone => ""
  | SBool true => "True"
  | SBool false => "False"
  | SInt z => pretty z
  | SStr s => s
  end.

(** the [index] keyword of [to_csv]; it defaults to [True] *)
Definition kw_index (kw : kwargs) : bool :=
  match dict_get (SStr "index") (map (fun a => (SStr a.1, a.2)) kw) with
  | Some v => truthy v
  | None => true
  end.

Definition csv_line (cells : list string) : string :=
  join "," cells +:+ String newline "".

Definition to_csv (kw : kwargs) (df : DataFrame) : string * option exn :=
  let with_index := kw_index kw in
  let header :=
    ((if with_index then [""] else []) ++ (df_columns df).*1)%list in
  let line (i : scalar) (row : list scalar) :=
    csv_line ((if with_index then [cell_text i] else []) ++ map cell_text row)%list in
  (csv_line header +:+ join "" (zip_with line (df_index df) (df_rows df)), None).

Fixpoint split_on (sep : ascii) (s : list ascii) : list (list ascii) :=
  match s with
  | [] => [[]]
  | c :: s' =>
      if Ascii.eqb c sep then [] :: split_on sep s'
      else
        match split_on sep s' with
        | cur :: rest => (c :: cur) :: rest
        | [] => [[c]]
        end
  end.

(** the lines of a text, without the empty piece after the last break *)
Definition lines (text : string) : list (list ascii) :=
  match rev (split_on newline (list_ascii_of_string text)) with
  | [] :: rlines => rev rlines
  | rlines => rev rlines
  end.

Definition cell_of (s : list ascii) : scalar :=
  match parse_int s with
  | Some (z, []) => SInt z
  | _ => SStr (string_of_list_ascii s)
  end.

Definition is_int (c : scalar) : bool :=
  match c with
  | SInt _ => true
  | _ => false
  end.

(** the dtype inferred for the column at position [i] *)
Definition infer_dtype (rows : list (list scalar)) (i : nat) : dtype :=
  match rows with
  | [] => "object"
  | _ =>
      if forallb (fun row => match row !! i with Some c => is_int c | None => false end)
           rows
      then "int64" else "object"
  end.

Definition read_csv (kw : kwargs) (text : string) : result DataFrame :=
  match lines text with
  | [] => Raise (ParserError "No columns to parse from file")
  | header :: body =>
      let names := imap (fun i name =>
                           match name with
                           | [] => "Unnamed: " +:+ pretty i
                           | _ => string_of_list_ascii name
                           end) (split_on "," header) in
      let rows := map (fun l => map cell_of (split_on "," l)) body in
      Ok {| df_columns := imap (fun i name => (name, infer_dtype rows i)) names;
            df_index := map (fun i => SInt (Z.of_nat i)) (seq 0 (length rows));
            df_rows := rows |}
  end.

(** *** python-box and the rest *)

Definition box_of_nonmapping (content : pyval) : result dict :=
  match content with
  | PStr _ => Raise (BoxValueError "Cannot extrapolate Box from string")
  | PList l =>
      let pair (x : pyval) : option (scalar * pyval) :=
        match x with
        | PList [PNone; v] => Some (SNone, v)
        | PList [PBool b; v] => Some (SBool b, v)
        | PList [PInt z; v] => Some (SInt z, v)
        | PList [PStr s; v] => Some (SStr s, v)
        | _ => None
        end in
      match mapM pair l with
      | Some pairs => Ok (dict_of_pairs pairs)
      | None => Raise (ValueError "cannot unpack the element into a key and a value")
      end
  | _ => Raise (BoxValueError "First argument must be mapping or iterable")
  end.

(** no key converts to the attribute *)
Definition box_missing_attr (box : dict) (attr : string) : result pyval :=
  Raise (BoxKeyError attr).

(** the numpy name behind a schema entry such as [int] or [str] *)
Definition dtype_name (expected : string) : string :=
  if String.eqb expected "int" then "int64"
  else if String.eqb expected "float" then "float64"
  else if String.eqb expected "str" then "<U0"
  else expected.

Definition is_dtype_equal (actual : dtype) (expected : pyval) : bool :=
  match expected with
  | PStr s => String.eqb actual (dtype_name s)
  | _ => false
  end.

#[export] Instance libraries : Libraries :=
  Build_Libraries yaml_safe_load json_text (fun _ _ => "") json_parse
    joblib_dump joblib_load to_csv read_csv is_dtype_equal
    box_of_nonmapping box_missing_attr (fun _ => 4096%N).

End Ref.

(** ** Concrete inputs *)

Definition empty_state : state := {| st_fs := ∅; st_log := [] |}.

(** A state with one file. *)
Definition one_file (p : path) (text : string) : state :=
  {| st_fs := {[ p := File text ]}; st_log := [] |}.

(** The schema of the docstring of [validate_data_schema], in flow
    style. *)
Definition sample_schema : string :=
  Ref.json_text 4
    (JObj [("required_columns", JArr [JStr "customer_id"; JStr "last_purchase_date"]);
           ("dtypes", JObj [("customer_id", JStr "str"); ("churn", JStr "int")])]).

(** A schema that lists required columns only. *)
Definition sample_schema_no_dtypes : string :=
  Ref.json_text 4
    (JObj [("required_columns", JArr [JStr "customer_id"; JStr "last_purchase_date"])]).

Definition churn_frame : DataFrame :=
  {| df_columns := [("churn", "int64")];
     df_index := [SInt 0; SInt 1];
     df_rows := [[SInt 1]; [SInt 0]] |}.

Definition frame_of (columns : list (string * dtype)) : DataFrame :=
  {| df_columns := columns; df_index := []; df_rows := [] |}.

(** ** Vocabulary of the statements *)

(** What was in the tree stays there. *)
Definition extends (fs fs' : tree) : Prop :=
  forall q n, fs_lookup fs q = Some n -> fs_lookup fs' q = Some n.

(** The recursive call of [makedirs], with a [FileExistsError] passed
    over. *)
Definition makedirs_head (rhead : list string) (fs : tree) : result unit * tree :=
  if negb (bool_decide (rhead = [])) && negb (exists_ fs (rev rhead)) then
    match makedirs_rev rhead fs with
    | (Raise e, fs') =>
        if is_FileExistsError e then (Ok tt, fs') else (Raise e, fs')
    | ok => ok
    end
  else (Ok tt, fs).

(** Every entry of the tree lies in a directory of the tree. *)
Definition wf_tree (fs : tree) : Prop :=
  forall p n, fs !! p = Some n -> isdir fs (parent p) = true.

(** The warnings of the dtype loop: one for each entry of [dtypes] that
    names a column of the frame whose dtype is not the declared one. *)
Definition dtype_warnings `{L : Libraries} (df : DataFrame)
    (items : list (scalar * pyval)) : list (level * message) :=
  flat_map
    (fun it =>
       if in_columns it.1 df then
         match column_dtype it.1 df with
         | Ok actual =>
             if negb (is_dtype_equal actual it.2)
             then [(WARNING, DtypeMismatch it.1 actual it.2)] else []
         | Raise _ => []
         end
       else [])
    items.

(** No label named by [items] heads two columns of the frame. *)
Definition labels_unique (df : DataFrame) (items : list (scalar * pyval)) : Prop :=
  forall col expected s,
    (col, expected) ∈ items -> col = SStr s ->
    (length (filter (fun c => c.1 = s) (df_columns df)) <= 1)%nat.

(** The state after one more log record. *)
Definition logged (lvl : level) (msg : message) (st : state) : state :=
  {| st_fs := st_fs st; st_log := st_log st ++ [(lvl, msg)] |}.

(** A text of [n] bytes. *)
Definition filler (n : nat) : string :=
  string_of_list_ascii (repeat "x"%char n).

(** A place where a file can be written: its directory is there, and
    the place is not a directory itself. *)
Definition writable (fs : tree) (p : path) : Prop :=
  fs_lookup fs (parent p) = Some Dir /\ isdir fs p = false.

(** Sizes that fit the signed 64-bit [st_size] of a file. *)
Definition fits_st_size (text : string) : Prop :=
  Z.of_nat (String.length text) < 2 ^ 63.

(** No file stands where [makedirs p] needs a directory. *)
Definition no_file_on (fs : tree) (p : path) : Prop :=
  forall q c, q `prefix_of` p -> fs_lookup fs q ≠ Some (File c).

(** Dates with a four-digit year. *)
Definition valid_date (d : date) : Prop :=
  1000 <= year d <= 9999 /\ 1 <= month d <= 12 /\ 1 <= day d <= 31.

(** The rotating file handler [setup_logger] builds. *)
Definition log_file_handler (log_dir : path) (max_log_size backup_count : Z)
    (now : date) : handler :=
  RotatingFileHandler (log_dir ++ [strftime_Ymd now +:+ ".log"])%list
    (max_log_size * 1024 * 1024) backup_count "utf-8" log_format.

(** ** template.py *)

Module Template.

(** The f-strings handed to the logger of template.py, by call site. *)
Inductive message :=
| CreatedDirectory (filedir : path)
| CreatedFile (filepath : path)
| FileExists (filepath : path)
| StructureCreated
| StructureError (e : exn).

(** The file tree and the records of this logger, oldest first. *)
Record state := {
  files : tree;
  records : list (level * message)
}.

Definition M (A : Type) : Type := state -> result A * state.

Definition ret {A} (a : A) : M A := fun st => (Ok a, st).

Definition raise {A} (e : exn) : M A := fun st => (Raise e, st).

Definition bind {A B} (m : M A) (k : A -> M B) : M B :=
  fun st =>
    match m st with
    | (Ok a, st') => k a st'
    | (Raise e, st') => (Raise e, st')
    end.

Declare Scope template_scope.
#[local] Notation "x <- m ;; k" := (bind m (fun x => k))
  (at level 100, m at next level, right associativity) : template_scope.
#[local] Notation "m ;;; k" := (bind m (fun _ => k))
  (at level 100, right associativity) : template_scope.
#[local] Open Scope template_scope.

Definition try_except {A} (body : M A) (handler : exn -> M A) : M A :=
  fun st =>
    match body st with
    | (Ok a, st') => (Ok a, st')
    | (Raise e, st') => handler e st'
    end.

Definition with_files (fs : tree) (st : state) : state :=
  {| files := fs; records := records st |}.

Definition logger_info (msg : message) : M unit :=
  fun st => (Ok tt, {| files := files st; records := records st ++ [(INFO, msg)] |}).

Definition logger_error (msg : message) : M unit :=
  fun st => (Ok tt, {| files := files st; records := records st ++ [(ERROR, msg)] |}).

Definition project_name : string := "luxottica_churn".

(** The parts of a string between slashes. *)
Fixpoint split_slash (s : string) : list string :=
  match s with
  | "" => [""]
  | String c s' =>
      if Ascii.eqb c "/" then "" :: split_slash s'
      else
        match split_slash s' with
        | [] => [String c ""]
        | x :: l => String c x :: l
        end
  end.

(** [Path(s)] for a relative path: empty parts and single dots are
    dropped. *)
Definition Path (s : string) : path :=
  filter (fun x => x ≠ "" /\ x ≠ ".") (split_slash s).

(** [list_of_files], with the f-strings written out. *)
Definition list_of_files (current_date : string) : list string :=
  [ "Dockerfile";
    "requirements.txt";
    ".dockerignore";
    ".gitignore";
    "src/" +:+ project_name +:+ "/__init__.py";
    "src/" +:+ project_name +:+ "/components/__init__.py";
    "src/" +:+ project_name +:+ "/components/data_ingestion.py";
    "src/" +:+ project_name +:+ "/components/data_transformation.py";
    "src/" +:+ project_name +:+ "/components/model_trainer.py";
    "src/" +:+ project_name +:+ "/components/model_evaluation.py";
    "src/" +:+ project_name +:+ "/lambda/__init__.py";
    "src/" +:+ project_name +:+ "/lambda/handler.py";
    "infra/terraform/main.tf";
    "src/" +:+ project_name +:+ "/config/__init__.py";
    "src/" +:+ project_name +:+ "/config/configuration.py";
    "config/config.yaml";
    "config/aws_config.yaml";
    "params.yaml";
    "schema.yaml";
    "src/" +:+ project_name +:+ "/utils/__init__.py";
    "src/" +:+ project_name +:+ "/utils/common.py";
    "src/" +:+ project_name +:+ "/utils/aws_utils.py";
    "src/" +:+ project_name +:+ "/pipeline/__init__.py";
    "src/" +:+ project_name +:+ "/pipeline/training_pipeline.py";
    "src/" +:+ project_name +:+ "/pipeline/prediction_pipeline.py";
    "src/" +:+ project_name +:+ "/entity/__init__.py";
    "src/" +:+ project_name +:+ "/entity/config_entity.py";
    "src/" +:+ project_name +:+ "/entity/artifact_entity.py";
    "src/" +:+ project_name +:+ "/constants/__init__.py";
    "main.py";
    "app.py";
    "setup.py";
    "research/" +:+ current_date +:+ "_trials.ipynb";
    "research/" +:+ current_date +:+ "_eda.ipynb";
    "templates/index.html";
    "static/css/main.css";
    "tests/__init__.py";
    "tests/test_data_validation.py";
    "docs/api_spec.yaml" ].

(** [Path.name]: the last part, empty for [Path('.')]. *)
Definition name (p : path) : string := List.last p "".

(** [s.rfind(c)] *)
Fixpoint rfind (c : ascii) (s : string) : option nat :=
  match s with
  | "" => None
  | String a s' =>
      match rfind c s' with
      | Some i => Some (S i)
      | None => if Ascii.eqb a c then Some 0%nat else None
      end
  end.

(** [Path.suffix]: the name from its last dot on, when that dot is
    neither the first nor the last character. *)
Definition suffix (p : path) : string :=
  let n := name p in
  match rfind "." n with
  | Some i =>
      if (0 <? i)%nat && (i <? String.length n - 1)%nat
      then substring i (String.length n - i) n
      else ""
  | None => ""
  end.

Definition nl : string := String "010" "".
Definition dq : string := String "034" "".

(** The text written into a new [.py] file. *)
Definition py_header (current_date : string) : string :=
  "# " +:+ project_name +:+ nl +:+ "# Created on " +:+ current_date +:+ nl +:+ nl
  +:+ dq +:+ dq +:+ dq +:+ nl +:+ "Module docstring" +:+ nl
  +:+ dq +:+ dq +:+ dq +:+ nl.

(** The text written into a new [Dockerfile]. *)
Definition dockerfile_text : string :=
  "# " +:+ project_name +:+ " Dockerfile" +:+ nl +:+ "FROM python:3.9-slim" +:+ nl +:+ nl
  +:+ "WORKDIR /app" +:+ nl +:+ nl
  +:+ "COPY requirements.txt ." +:+ nl
  +:+ "RUN pip install --no-cache-dir -r requirements.txt" +:+ nl +:+ nl
  +:+ "COPY . ." +:+ nl +:+ nl
  +:+ "CMD [" +:+ dq +:+ "python" +:+ dq +:+ ", " +:+ dq +:+ "app.py" +:+ dq +:+ "]".

(** What the [with] block writes into the file it opened. *)
Definition written_text (current_date : string) (filepath : path) : string :=
  if String.eqb (suffix filepath) ".py" then py_header current_date
  else if String.eqb (name filepath) "Dockerfile" then dockerfile_text
  else "".

(** [self.mkdir(parents=False, exist_ok=True)] *)
Definition Path_mkdir_self (p : path) (fs : tree) : result unit * tree :=
  match mkdir p fs with
  | Ok fs' => (Ok tt, fs')
  | Raise (FileNotFoundError q) => (Raise (FileNotFoundError q), fs)
  | Raise e => if isdir fs p then (Ok tt, fs) else (Raise e, fs)
  end.

(** [Path.mkdir(parents=True, exist_ok=True)] on the reversed parts of
    the path: [os.mkdir] first; on [FileNotFoundError] the parent is
    made the same way and the directory after it; any other [OSError]
    is passed over when the path is a directory. *)
Fixpoint Path_mkdir_rev (rp : list string) (fs : tree) : result unit * tree :=
  match mkdir (rev rp) fs with
  | Ok fs' => (Ok tt, fs')
  | Raise (FileNotFoundError q) =>
      match rp with
      | [] => (Raise (FileNotFoundError q), fs)
      | _ :: rparent =>
          match Path_mkdir_rev rparent fs with
          | (Raise e, fs1) => (Raise e, fs1)
          | (Ok _, fs1) => Path_mkdir_self (rev rp) fs1
          end
      end
  | Raise e => if isdir fs (rev rp) then (Ok tt, fs) else (Raise e, fs)
  end.

Definition Path_mkdir (p : path) : M unit :=
  fun st =>
    let '(r, fs') := Path_mkdir_rev (rev p) (files st) in (r, with_files fs' st).

(** [Path.exists] *)
Definition Path_exists (p : path) : M bool :=
  fun st => (Ok (exists_ (files st) p), st).

Section Template.
Context `{L : Libraries}.

(** [os.path.getsize] *)
Definition getsize (p : path) : M Z :=
  fun st =>
    (match fs_lookup (files st) p with
     | None => Raise (FileNotFoundError p)
     | Some Dir => Ok (Z.of_N (dir_st_size p))
     | Some (File c) => Ok (Z.of_nat (String.length c))
     end, st).

(** [with open(filepath, 'w') as f: f.write(text)] *)
Definition open_and_write (p : path) (text : string) : M unit :=
  fun st =>
    match open_w p (files st) with
    | Ok fs' => (Ok tt, with_files (append_file p text fs') st)
    | Raise e => (Raise e, st)
    end.

(** One round of the loop of [create_project_structure]. *)
Definition create_file (current_date : string) (file : string) : M unit :=
  let filepath := Path file in
  let filedir := parent filepath in
  dir_there <- Path_exists filedir ;;
  (if negb dir_there then
     Path_mkdir filedir ;;;
     logger_info (CreatedDirectory filedir)
   else ret tt) ;;;
  there <- Path_exists filepath ;;
  fresh <- (if negb there then ret true
            else size <- getsize filepath ;; ret (size =? 0)) ;;
  if fresh then
    open_and_write filepath (written_text current_date filepath) ;;;
    logger_info (CreatedFile filepath)
  else
    logger_info (FileExists filepath).

Fixpoint create_files (current_date : string) (files : list string) : M unit :=
  match files with
  | [] => ret tt
  | file :: rest =>
      create_file current_date file ;;;
      create_files current_date rest
  end.

(** [current_date] is the day [now] the module is loaded. *)
Definition create_project_structure (now : date) : M unit :=
  let current_date := strftime_Ymd now in
  try_except
    (create_files current_date (list_of_files current_date) ;;;
     logger_info StructureCreated)
    (fun e =>
       logger_error (StructureError e) ;;;
       raise e).

End Template.

(** What has content stays as it is: everything but the empty files. *)
Definition keeps_content (fs fs' : tree) : Prop :=
  forall q n, fs_lookup fs q = Some n -> n ≠ File "" -> fs_lookup fs' q = Some n.

(** The second tree is the first with directories added at free
    places. *)
Definition adds_dirs (fs fs' : tree) : Prop :=
  forall q,
    fs_lookup fs' q = fs_lookup fs q
    \/ (fs_lookup fs q = None /\ fs_lookup fs' q = Some Dir).

(** A listed file the loop passes without changing the tree: its
    directory is there, and it is a directory of a size other than
    zero, a file with content, or an empty file that is written
    empty. *)
Definition settled `{L : Libraries} (current_date : string) (fs : tree)
    (file : string) : Prop :=
  let p := Path file in
  exists_ fs (parent p) = true
  /\ ((fs_lookup fs p = Some Dir /\ dir_st_size p ≠ 0%N)
      \/ (exists c, fs_lookup fs p = Some (File c) /\ c ≠ "")
      \/ (fs_lookup fs p = Some (File "") /\ written_text current_date p = ""
          /\ isdir fs (parent p) = true)).

End Template.

(** ** More vocabulary *)

(** What comes back from JSON: every key replaced by its member name,
    later items winning over earlier ones of the same name. *)
Fixpoint json_image (v : pyval) : pyval :=
  match v with
  | PList l => PList (map json_image l)
  | PDict kvs =>
      PDict (dict_of_pairs
               (map (fun kv => (SStr (json_key kv.1), json_image kv.2)) kvs))
  | _ => v
  end.

(** Objects the encoder of [json.dump] accepts: no foreign object at
    any depth. *)
Fixpoint json_serialisable (v : pyval) : bool :=
  match v with
  | PList l => forallb json_serialisable l
  | PDict kvs => forallb (fun kv => json_serialisable kv.2) kvs
  | PObj _ => false
  | _ => true
  end.

(** A computation that leaves a well-formed tree well formed, however
    it ends. *)
Definition keeps_wf {A} (m : M A) : Prop :=
  forall st, wf_tree (st_fs st) -> wf_tree (st_fs (m st).2).

(** The column labels a schema names: the strings among its
    [required_columns] and the keys of its [dtypes]. *)
Definition schema_names `{L : Libraries} (schema : dict) (s : string) : Prop :=
  (exists required_columns required,
      box_getattr schema "required_columns" = Ok required_columns
      /\ py_set required_columns = Ok required /\ AStr s ∈ required)
  \/ (exists items expected,
         box_getattr schema "dtypes" = Ok (PDict items)
         /\ (SStr s, expected) ∈ items).

(** * Properties *)

(** ** The file tree *)

Lemma fs_lookup_insert (fs : tree) (p q : path) (n : node) :
  p ≠ [] ->
  fs_lookup (<[p := n]> fs) q = if decide (p = q) then Some n else fs_lookup fs q.
Proof.
  intros Hp. unfold fs_lookup. destruct q as [|x q].
  - destruct (decide (p = [])); congruence.
  - rewrite lookup_insert. repeat case_decide; congruence.
Qed.

Lemma fs_lookup_None_nonempty (fs : tree) (p : path) :
  fs_lookup fs p = None -> p ≠ [].
Proof. intros H ->. discriminate. Qed.

(** The three outcomes of [mkdir] under [exist_ok]. *)
Lemma mkdir_exist_ok_cases (p : path) (fs : tree) :
  (mkdir_exist_ok p fs = (Ok tt, <[p := Dir]> fs)
   /\ fs_lookup fs p = None /\ fs_lookup fs (parent p) = Some Dir)
  \/ (mkdir_exist_ok p fs = (Ok tt, fs) /\ isdir fs p = true)
  \/ (exists e, mkdir_exist_ok p fs = (Raise e, fs) /\ isdir fs p = false
        /\ (is_FileExistsError e = true -> exists_ fs p = true)).
Proof.
  unfold mkdir_exist_ok, mkdir, isdir, exists_.
  destruct (fs_lookup fs (parent p)) as [[|c]|] eqn:Hpar;
    destruct (fs_lookup fs p) as [[|c']|] eqn:Hp; simpl; eauto 10;
    right; right; eexists; (split; [reflexivity|]); split; auto; discriminate.
Qed.

Lemma mkdir_exist_ok_settled (p : path) (fs : tree) :
  isdir fs p = true ->
  (p = [] \/ exists_ fs (parent p) = true) ->
  mkdir_exist_ok p fs = (Ok tt, fs).
Proof.
  intros Hd Hpar. unfold mkdir_exist_ok, mkdir. rewrite Hd.
  unfold isdir, exists_ in *.
  destruct Hpar as [-> | Hpar]; [reflexivity|].
  destruct (fs_lookup fs (parent p)) as [[|c]|]; try discriminate; try reflexivity.
  destruct (fs_lookup fs p) as [[|c']|]; try discriminate; reflexivity.
Qed.

Lemma extends_refl (fs : tree) : extends fs fs.
Proof. intros q n Hq. exact Hq. Qed.

Lemma extends_trans (fs1 fs2 fs3 : tree) :
  extends fs1 fs2 -> extends fs2 fs3 -> extends fs1 fs3.
Proof. intros H12 H23 q n Hq. auto. Qed.

Lemma extends_isdir (fs fs' : tree) (p : path) :
  extends fs fs' -> isdir fs p = true -> isdir fs' p = true.
Proof.
  unfold isdir. intros He Hd.
  destruct (fs_lookup fs p) as [[|c]|] eqn:Hp; try discriminate.
  by rewrite (He _ _ Hp).
Qed.

Lemma extends_exists (fs fs' : tree) (p : path) :
  extends fs fs' -> exists_ fs p = true -> exists_ fs' p = true.
Proof.
  unfold exists_. intros He Hd.
  destruct (fs_lookup fs p) as [n|] eqn:Hp; try discriminate.
  by rewrite (He _ _ Hp).
Qed.

Lemma mkdir_exist_ok_extends (p : path) (fs fs' : tree) (r : result unit) :
  mkdir_exist_ok p fs = (r, fs') -> extends fs fs'.
Proof.
  intros Hm.
  destruct (mkdir_exist_ok_cases p fs) as [(E & Hp & _) | [(E & _) | (e & E & _)]];
    rewrite E in Hm; inversion Hm; subst; try apply extends_refl.
  intros q n Hq. rewrite fs_lookup_insert by eauto using fs_lookup_None_nonempty.
  case_decide; congruence.
Qed.

Lemma mkdir_exist_ok_other (p k : path) (fs fs' : tree) (r : result unit) :
  mkdir_exist_ok p fs = (r, fs') -> k ≠ p -> fs' !! k = fs !! k.
Proof.
  intros Hm Hk.
  destruct (mkdir_exist_ok_cases p fs) as [(E & Hp & _) | [(E & _) | (e & E & _)]];
    rewrite E in Hm; inversion Hm; subst; try reflexivity.
  by rewrite lookup_insert_ne.
Qed.

Lemma mkdir_exist_ok_isdir (p : path) (fs fs' : tree) :
  mkdir_exist_ok p fs = (Ok tt, fs') -> isdir fs' p = true.
Proof.
  intros Hm.
  destruct (mkdir_exist_ok_cases p fs) as [(E & Hp & _) | [(E & Hd) | (e & E & _)]];
    rewrite E in Hm; inversion Hm; subst; try assumption.
  unfold isdir. rewrite fs_lookup_insert by eauto using fs_lookup_None_nonempty.
  by rewrite decide_True.
Qed.

Lemma makedirs_rev_cons (tail : string) (rhead : list string) (fs : tree) :
  makedirs_rev (tail :: rhead) fs =
  match makedirs_head rhead fs with
  | (Raise e, fs1) => (Raise e, fs1)
  | (Ok _, fs1) => mkdir_exist_ok (rev (tail :: rhead)) fs1
  end.
Proof.
  unfold makedirs_head. cbn [makedirs_rev].
  destruct (negb (bool_decide (rhead = [])) && negb (exists_ fs (rev rhead)));
    [|reflexivity].
  destruct (makedirs_rev rhead fs) as [[u|e] fs']; [reflexivity|].
  destruct (is_FileExistsError e); reflexivity.
Qed.

(** [makedirs] leaves alone every path longer than its argument. *)
Lemma makedirs_rev_longer (rp : list string) :
  forall (fs fs' : tree) (r : result unit) (k : path),
    makedirs_rev rp fs = (r, fs') ->
    (length rp < length k)%nat -> fs' !! k = fs !! k.
Proof.
  induction rp as [|tail rhead IH]; intros fs fs' r k Hm Hk.
  - simpl in Hm. apply (mkdir_exist_ok_other _ k) in Hm; [done|].
    intros ->. simpl in Hk. lia.
  - rewrite makedirs_rev_cons in Hm.
    assert (Hhead : forall r1 fs1, makedirs_head rhead fs = (r1, fs1) ->
                                   fs1 !! k = fs !! k).
    { unfold makedirs_head. intros r1 fs1 Hh.
      destruct (negb (bool_decide (rhead = [])) && negb (exists_ fs (rev rhead)));
        [|by inversion Hh].
      destruct (makedirs_rev rhead fs) as [[u|e] fs2] eqn:Hrec.
      - inversion Hh; subst. eapply IH; [eassumption|]. simpl in Hk. lia.
      - assert (fs2 !! k = fs !! k) by (eapply IH; [eassumption|]; simpl in Hk; lia).
        destruct (is_FileExistsError e); inversion Hh; subst; assumption. }
    destruct (makedirs_head rhead fs) as [[u|e] fs1] eqn:Hh.
    + rewrite <- (Hhead _ _ eq_refl).
      apply (mkdir_exist_ok_other _ k) in Hm; [done|].
      intros ->. rewrite length_rev in Hk. lia.
    + inversion Hm; subst. eapply Hhead. reflexivity.
Qed.

Lemma makedirs_rev_extends (rp : list string) :
  forall (fs fs' : tree) (r : result unit),
    makedirs_rev rp fs = (r, fs') -> extends fs fs'.
Proof.
  induction rp as [|tail rhead IH]; intros fs fs' r Hm.
  - simpl in Hm. eauto using mkdir_exist_ok_extends.
  - rewrite makedirs_rev_cons in Hm.
    assert (Hhead : forall r1 fs1, makedirs_head rhead fs = (r1, fs1) ->
                                   extends fs fs1).
    { unfold makedirs_head. intros r1 fs1 Hh.
      destruct (negb (bool_decide (rhead = [])) && negb (exists_ fs (rev rhead)));
        [|inversion Hh; apply extends_refl].
      destruct (makedirs_rev rhead fs) as [[u|e] fs2] eqn:Hrec.
      - inversion Hh; subst. eauto.
      - destruct (is_FileExistsError e); inversion Hh; subst; eauto. }
    destruct (makedirs_head rhead fs) as [[u|e] fs1] eqn:Hh.
    + eapply extends_trans; [eapply Hhead; reflexivity|].
      eauto using mkdir_exist_ok_extends.
    + inversion Hm; subst. eapply Hhead. reflexivity.
Qed.

(** A [FileExistsError] leaves [makedirs] only when the path is there. *)
Lemma makedirs_rev_FileExistsError (rp : list string) (fs fs' : tree) (e : exn) :
  makedirs_rev rp fs = (Raise e, fs') ->
  is_FileExistsError e = true -> exists_ fs (rev rp) = true.
Proof.
  destruct rp as [|tail rhead]; intros Hm He; [reflexivity|].
  rewrite makedirs_rev_cons in Hm.
  destruct (makedirs_head rhead fs) as [[u|e1] fs1] eqn:Hh.
  - destruct (mkdir_exist_ok_cases (rev (tail :: rhead)) fs1)
      as [(E & _) | [(E & _) | (e2 & E & _ & Hex)]];
      rewrite E in Hm; inversion Hm; subst.
    specialize (Hex He).
    assert (Hk : fs' !! rev (tail :: rhead) = fs !! rev (tail :: rhead)).
    { unfold makedirs_head in Hh.
      destruct (negb (bool_decide (rhead = [])) && negb (exists_ fs (rev rhead)));
        [|by inversion Hh].
      destruct (makedirs_rev rhead fs) as [[u1|e1] fs2] eqn:Hrec.
      - inversion Hh; subst. eapply makedirs_rev_longer; [eassumption|].
        rewrite length_rev. simpl. lia.
      - destruct (is_FileExistsError e1); inversion Hh; subst.
        eapply makedirs_rev_longer; [eassumption|].
        rewrite length_rev. simpl. lia. }
    unfold exists_, fs_lookup in *.
    destruct (rev (tail :: rhead)) eqn:Hr; [reflexivity|].
    rewrite <- Hk. exact Hex.
  - inversion Hm; subst. unfold makedirs_head in Hh.
    destruct (negb (bool_decide (rhead = [])) && negb (exists_ fs (rev rhead)));
      [|discriminate].
    destruct (makedirs_rev rhead fs) as [[u1|e1] fs2]; [discriminate|].
    destruct (is_FileExistsError e1) eqn:He1; inversion Hh; subst. congruence.
Qed.


Lemma parent_rev_cons (tail : string) (rhead : list string) :
  parent (rev (tail :: rhead)) = rev rhead.
Proof. unfold parent. simpl. apply removelast_last. Qed.


(** A directory whose parent is there: [makedirs] has nothing to do. *)
Lemma makedirs_rev_settled (rp : list string) (fs : tree) :
  isdir fs (rev rp) = true ->
  exists_ fs (parent (rev rp)) = true ->
  makedirs_rev rp fs = (Ok tt, fs).
Proof.
  destruct rp as [|tail rhead]; intros Hd Hpar.
  - simpl. apply mkdir_exist_ok_settled; auto.
  - rewrite makedirs_rev_cons. unfold makedirs_head.
    rewrite parent_rev_cons in Hpar. rewrite Hpar, andb_false_r.
    apply mkdir_exist_ok_settled; [assumption|].
    right. by rewrite parent_rev_cons.
Qed.

Lemma makedirs_rev_ok (rp : list string) :
  forall (fs fs' : tree),
    makedirs_rev rp fs = (Ok tt, fs') ->
    isdir fs' (rev rp) = true /\ exists_ fs' (parent (rev rp)) = true.
Proof.
  induction rp as [|tail rhead IH]; intros fs fs' Hm; [done|].
  rewrite makedirs_rev_cons in Hm.
  destruct (makedirs_head rhead fs) as [[u|e] fs1] eqn:Hh; [|discriminate].
  split; [eauto using mkdir_exist_ok_isdir|].
  rewrite parent_rev_cons.
  eapply extends_exists; [eapply mkdir_exist_ok_extends; eassumption|].
  unfold makedirs_head in Hh.
  destruct (bool_decide (rhead = [])) eqn:Hnil; simpl in Hh.
  { apply bool_decide_eq_true in Hnil. by subst. }
  destruct (exists_ fs (rev rhead)) eqn:Hex; simpl in Hh.
  { by inversion Hh; subst. }
  destruct (makedirs_rev rhead fs) as [[[]|e] fs2] eqn:Hrec.
  - inversion Hh; subst. destruct (IH _ _ Hrec) as [Hd _].
    unfold isdir, exists_ in *. by destruct (fs_lookup fs1 (rev rhead)) as [[|c]|].
  - destruct (is_FileExistsError e) eqn:He; [|discriminate].
    apply makedirs_rev_FileExistsError in Hrec; congruence.
Qed.




Lemma makedirs_extends (p : path) (fs fs' : tree) (r : result unit) :
  makedirs p fs = (r, fs') -> extends fs fs'.
Proof. apply makedirs_rev_extends. Qed.


(** Once made, a directory passes [makedirs] unchanged in every larger
    tree. *)
Lemma makedirs_stable (p : path) (fs fs1 fs2 : tree) :
  makedirs p fs = (Ok tt, fs1) -> extends fs1 fs2 ->
  makedirs p fs2 = (Ok tt, fs2).
Proof.
  unfold makedirs. intros Hm Hext.
  apply makedirs_rev_ok in Hm as [Hd Hpar].
  apply makedirs_rev_settled; eauto using extends_isdir, extends_exists.
Qed.


(** Well-formedness is kept by [makedirs]. *)
Lemma wf_tree_empty : wf_tree ∅.
Proof. intros p n Hp. by rewrite lookup_empty in Hp. Qed.

Lemma mkdir_exist_ok_wf (p : path) (fs fs' : tree) (r : result unit) :
  mkdir_exist_ok p fs = (r, fs') -> wf_tree fs -> wf_tree fs'.
Proof.
  intros Hm Hwf.
  destruct (mkdir_exist_ok_cases p fs) as [(E & Hp & Hpar) | [(E & _) | (e & E & _)]];
    rewrite E in Hm; inversion Hm; subst; try assumption.
  assert (Hne : p ≠ []) by eauto using fs_lookup_None_nonempty.
  intros q n Hq. unfold isdir. rewrite fs_lookup_insert by done.
  case_decide; [reflexivity|].
  rewrite lookup_insert in Hq. case_decide.
  - subst q. by rewrite Hpar.
  - apply Hwf in Hq. exact Hq.
Qed.

Lemma makedirs_rev_wf (rp : list string) :
  forall (fs fs' : tree) (r : result unit),
    makedirs_rev rp fs = (r, fs') -> wf_tree fs -> wf_tree fs'.
Proof.
  induction rp as [|tail rhead IH]; intros fs fs' r Hm Hwf.
  - simpl in Hm. eauto using mkdir_exist_ok_wf.
  - rewrite makedirs_rev_cons in Hm.
    assert (Hhead : forall r1 fs1, makedirs_head rhead fs = (r1, fs1) -> wf_tree fs1).
    { unfold makedirs_head. intros r1 fs1 Hh.
      destruct (negb (bool_decide (rhead = [])) && negb (exists_ fs (rev rhead)));
        [|by inversion Hh; subst].
      destruct (makedirs_rev rhead fs) as [[u|e] fs2] eqn:Hrec.
      - inversion Hh; subst. eauto.
      - destruct (is_FileExistsError e); inversion Hh; subst; eauto. }
    destruct (makedirs_head rhead fs) as [[u|e] fs1] eqn:Hh.
    + eapply mkdir_exist_ok_wf; [eassumption|]. eauto.
    + inversion Hm; subst. eauto.
Qed.

(** ** The state monad *)

Lemma bind_Ok {A B} (m : M A) (k : A -> M B) (st st' : state) (a : A) :
  m st = (Ok a, st') -> bind m k st = k a st'.
Proof. unfold bind. by intros ->. Qed.

Lemma bind_Raise {A B} (m : M A) (k : A -> M B) (st st' : state) (e : exn) :
  m st = (Raise e, st') -> bind m k st = (Raise e, st').
Proof. unfold bind. by intros ->. Qed.


Section CommonProperties.
Context `{L : Libraries}.

(** ** create_directories *)





End CommonProperties.

(** ** get_size *)

Lemma round_half_even_scale (a b c : Z) :
  0 < b -> 0 < c -> round_half_even (a * c) (b * c) = round_half_even a b.
Proof.
  intros Hb Hc. unfold round_half_even.
  rewrite Z.div_mul_cancel_r by lia.
  rewrite Z.mul_mod_distr_r by lia.
  replace (2 * (a mod b * c)) with (2 * (a mod b) * c) by ring.
  assert (E1 : (2 * (a mod b) * c <? b * c) = (2 * (a mod b) <? b)).
  { apply eq_true_iff_eq. rewrite !Z.ltb_lt. nia. }
  assert (E2 : (b * c <? 2 * (a mod b) * c) = (b <? 2 * (a mod b))).
  { apply eq_true_iff_eq. rewrite !Z.ltb_lt. nia. }
  by rewrite E1, E2.
Qed.

Lemma round_half_even_exact (q b : Z) :
  0 < b -> round_half_even (q * b) b = q.
Proof.
  intros Hb. unfold round_half_even.
  rewrite Z.div_mul, Z.mod_mul by lia.
  assert ((2 * 0 <? b) = true) as -> by (apply Z.ltb_lt; lia). reflexivity.
Qed.

(** the nearest integer: within one half *)
Lemma round_half_even_nearest (a b : Z) :
  0 < b -> 2 * Z.abs (a - b * round_half_even a b) <= b.
Proof.
  intros Hb. unfold round_half_even.
  pose proof (Z.div_mod a b ltac:(lia)) as Hdm.
  pose proof (Z.mod_pos_bound a b Hb) as Hr.
  destruct (2 * (a mod b) <? b) eqn:E1; [apply Z.ltb_lt in E1; lia|].
  apply Z.ltb_ge in E1.
  destruct (b <? 2 * (a mod b)) eqn:E2; [apply Z.ltb_lt in E2; lia|].
  apply Z.ltb_ge in E2.
  destruct (Z.even (a / b)); lia.
Qed.

(** On operands below [2^53] and a power of two as divisor, the
    quotient is a double: [truediv] is exact. *)
Lemma truediv_pow2_exact (n k : Z) :
  0 < n < 2 ^ 53 -> 0 < k ->
  exists x, truediv n (2 ^ k) = Ok x
            /\ hundredths x = round_half_even (100 * n) (2 ^ k).
Proof.
  intros [Hn0 Hn] Hk.
  pose proof (Z.log2_spec n Hn0) as [Hlo Hhi].
  pose proof (Z.log2_nonneg n) as HL0.
  assert (HL : Z.log2 n <= 52).
  { assert (Z.log2 n < 53); [|lia]. apply Z.log2_lt_pow2; lia. }
  set (L := Z.log2 n) in *.
  unfold truediv. rewrite (proj2 (Z.eqb_neq n 0)) by lia.
  rewrite Z.log2_pow2 by lia. fold L.
  set (e0 := L - k - 52).
  assert (He0 : e0 < 0) by (unfold e0; lia).
  rewrite (proj2 (Z.leb_gt 0 e0)) by lia. simpl fst. simpl snd.
  replace (- e0) with ((52 - L) + k) by (unfold e0; lia).
  rewrite Z.pow_add_r by lia.
  replace (n * (2 ^ (52 - L) * 2 ^ k)) with (n * 2 ^ (52 - L) * 2 ^ k) by ring.
  assert (Hpk : 0 < 2 ^ k) by (apply Z.pow_pos_nonneg; lia).
  assert (Hps : 0 < 2 ^ (52 - L)) by (apply Z.pow_pos_nonneg; lia).
  rewrite Z.div_mul by lia.
  assert (Hge : 2 ^ 52 <= n * 2 ^ (52 - L)).
  { replace (2 ^ 52) with (2 ^ L * 2 ^ (52 - L)).
    - apply Z.mul_le_mono_nonneg_r; lia.
    - rewrite <- Z.pow_add_r by lia. f_equal. lia. }
  rewrite (proj2 (Z.ltb_ge _ _)) by exact Hge.
  rewrite (proj2 (Z.leb_gt 0 e0)) by lia. simpl fst. simpl snd. simpl andb.
  replace (- e0) with ((52 - L) + k) by (unfold e0; lia).
  rewrite Z.pow_add_r by lia.
  replace (n * (2 ^ (52 - L) * 2 ^ k)) with (n * 2 ^ (52 - L) * 2 ^ k) by ring.
  rewrite round_half_even_exact by lia.
  eexists. split; [reflexivity|].
  unfold hundredths. simpl mant. simpl expo.
  rewrite (proj2 (Z.leb_gt 0 e0)) by lia.
  replace (- e0) with ((52 - L) + k) by (unfold e0; lia).
  rewrite Z.pow_add_r by lia.
  replace (n * 2 ^ (52 - L) * 100) with (100 * n * 2 ^ (52 - L)) by ring.
  rewrite (Z.mul_comm (2 ^ (52 - L)) (2 ^ k)).
  apply round_half_even_scale; lia.
Qed.

(** Below [2^63] the quotient by [1024^2] is in range. *)
Lemma truediv_no_overflow (n d : Z) :
  0 <= n -> 0 < d -> Z.log2 n < Z.log2 d + 52 ->
  exists x, truediv n d = Ok x.
Proof.
  intros Hn Hd HL. unfold truediv.
  destruct (n =? 0); [eauto|].
  set (e0 := Z.log2 n - Z.log2 d - 52).
  assert (e0 < 0) by (unfold e0; lia).
  match goal with |- context [if ?c then e0 - 1 else e0] => destruct c end.
  - rewrite (proj2 (Z.leb_gt 0 (e0 - 1))) by lia. simpl. eauto.
  - rewrite (proj2 (Z.leb_gt 0 e0)) by lia. simpl. eauto.
Qed.

Section GetSize.
Context `{L : Libraries}.


Lemma getsize_nonneg (p : path) (st : state) (n : Z) :
  (getsize p st).1 = Ok n -> 0 <= n.
Proof.
  unfold getsize, fs_read. simpl.
  destruct (fs_lookup (st_fs st) p) as [[|c]|]; intros Hn; inversion Hn; lia.
Qed.


End GetSize.

(** ** read_yaml *)

Section ReadYaml.
Context `{L : Libraries}.

(** C6. [read_yaml] logs and re-raises every exception of its body,
    unchanged: the one of opening the file, the one of the parser, the
    [BoxValueError] it raises itself on content that is not truthy, and
    the one of boxing the content; it returns a [ConfigBox] exactly when
    the file was read, parsed to truthy content and boxed. *)
Theorem read_yaml_reraises (p : path) (st : state) :
  match read_file p (st_fs st) with
  | Raise e => read_yaml p st = (Raise e, logged ERROR (YamlReadError p e) st)
  | Ok text =>
      match yaml_safe_load text with
      | Raise e => read_yaml p st = (Raise e, logged ERROR (YamlReadError p e) st)
      | Ok content =>
          if truthy content then
            match ConfigBox content with
            | Raise e =>
                read_yaml p st
                = (Raise e,
                   logged ERROR (YamlReadError p e) (logged INFO (YamlLoaded p) st))
            | Ok box => read_yaml p st = (Ok box, logged INFO (YamlLoaded p) st)
            end
          else
            let e := BoxValueError "YAML file is empty" in
            read_yaml p st = (Raise e, logged ERROR (YamlReadError p e) st)
      end
  end.
Proof.
  unfold read_yaml, read_yaml_body, try_except, bind, fs_read, lift.
  destruct (read_file p (st_fs st)) as [text|e]; [|reflexivity].
  destruct (yaml_safe_load text) as [content|e]; [|reflexivity].
  destruct (truthy content); simpl; [|reflexivity].
  destruct (ConfigBox content) as [box|e]; reflexivity.
Qed.

(** The values that are not truthy. *)
Lemma truthy_false (v : pyval) :
  truthy v = false <->
  v ∈ [PNone; PBool false; PInt 0; PStr ""; PList []; PDict []].
Proof.
  split.
  - destruct v as [|[]|z|s|l|kvs|id]; simpl; try discriminate; intros Hv.
    + set_solver.
    + set_solver.
    + apply negb_false_iff, Z.eqb_eq in Hv as ->. set_solver.
    + apply negb_false_iff, String.eqb_eq in Hv as ->. set_solver.
    + destruct l; [set_solver|discriminate].
    + destruct kvs; [set_solver|discriminate].
  - intros Hv. repeat (apply elem_of_cons in Hv as [-> | Hv]; [reflexivity|]).
    by apply elem_of_nil in Hv.
Qed.

(** C9. On a file that parses to a value that is not truthy -- [None]
    for an empty file, but also [False], [0], the empty string, the
    empty list and the empty mapping -- [read_yaml] raises its
    [BoxValueError], which is a [ValueError], after logging it; the
    value is not returned. *)
Theorem read_yaml_rejects_falsy (p : path) (st : state) (text : string)
    (content : pyval) :
  read_file p (st_fs st) = Ok text ->
  yaml_safe_load text = Ok content ->
  content ∈ [PNone; PBool false; PInt 0; PStr ""; PList []; PDict []] ->
  let e := BoxValueError "YAML file is empty" in
  read_yaml p st = (Raise e, logged ERROR (YamlReadError p e) st)
  /\ is_ValueError e = true.
Proof.
  intros Hread Hload Hfalsy. apply truthy_false in Hfalsy.
  split; [|reflexivity].
  unfold read_yaml, read_yaml_body, try_except, bind, fs_read, lift.
  by rewrite Hread, Hload, Hfalsy.
Qed.

End ReadYaml.

(** ** validate_data_schema *)

Section ValidateDataSchema.
Context `{L : Libraries}.


Lemma in_columns_dtype (df : DataFrame) (s : string) :
  in_columns (SStr s) df = true ->
  (length (filter (fun c => c.1 = s) (df_columns df)) <= 1)%nat ->
  exists actual, column_dtype (SStr s) df = Ok actual.
Proof.
  unfold in_columns, column_dtype. intros Hin Hlen.
  apply bool_decide_eq_true in Hin. apply list_elem_of_fmap in Hin as (c & Hc & Hin).
  assert (c ∈ filter (fun c => c.1 = s) (df_columns df)) as Hf
    by (apply list_elem_of_filter; auto).
  destruct (filter (fun c => c.1 = s) (df_columns df)) as [|c1 [|c2 l]]; simpl in *.
  - by apply elem_of_nil in Hf.
  - eauto.
  - lia.
Qed.

Lemma check_dtypes_run (df : DataFrame) (items : list (scalar * pyval)) :
  labels_unique df items ->
  forall st,
    check_dtypes df items st
    = (Ok tt, {| st_fs := st_fs st; st_log := st_log st ++ dtype_warnings df items |}).
Proof.
  induction items as [|[col expected] items IH]; intros Huniq st.
  - simpl. unfold ret. rewrite app_nil_r. by destruct st.
  - assert (Hrest : labels_unique df items).
    { intros c e s Hc. apply (Huniq c e s). by right. }
    cbn [check_dtypes dtype_warnings flat_map fst snd].
    fold (dtype_warnings df items).
    destruct (in_columns col df) eqn:Hin.
    + destruct col as [| | |s]; try discriminate.
      destruct (in_columns_dtype df s Hin) as (actual & Hact).
      { apply (Huniq (SStr s) expected s); [by left|reflexivity]. }
      unfold bind at 1. unfold bind at 1. unfold lift. rewrite Hact.
      destruct (is_dtype_equal actual expected); simpl.
      * rewrite (IH Hrest). reflexivity.
      * rewrite (IH Hrest). simpl. by rewrite <- app_assoc.
    + unfold bind at 1. simpl. rewrite (IH Hrest). reflexivity.
Qed.

(** C4, as amended.  When the schema file is read, all its required
    columns are columns of the frame, its [dtypes] entry is a mapping
    and no label named there heads two columns, [validate_data_schema]
    returns [True] whatever the dtypes are: each column whose dtype is
    not the declared one adds one warning to the log, and nothing
    else depends on the dtypes. *)
Theorem validate_data_schema_dtypes_warn_only (df : DataFrame) (schema_path : path)
    (st st1 : state) (schema : dict) (required_columns : pyval)
    (required : gset atom) (items : list (scalar * pyval)) :
  read_yaml schema_path st = (Ok schema, st1) ->
  box_getattr schema "required_columns" = Ok required_columns ->
  py_set required_columns = Ok required ->
  required ⊆ columns_set df ->
  box_getattr schema "dtypes" = Ok (PDict items) ->
  labels_unique df items ->
  validate_data_schema df schema_path st
  = (Ok true,
     {| st_fs := st_fs st1;
        st_log := st_log st1 ++ dtype_warnings df items ++ [(INFO, SchemaPassed)] |}).
Proof.
  intros Hread Hattr Hset Hsub Hdt Huniq.
  unfold validate_data_schema. rewrite (bind_Ok _ _ _ _ _ Hread).
  unfold bind, lift. rewrite Hattr, Hset.
  rewrite bool_decide_eq_true_2.
  2: { apply leibniz_equiv, elem_of_equiv_empty. intros a Ha.
       apply elem_of_difference in Ha as [Hin Hout]. by apply Hout, Hsub. }
  simpl. rewrite Hdt. simpl. rewrite (check_dtypes_run df items Huniq).
  unfold logger_info, log, ret. simpl. by rewrite <- app_assoc.
Qed.

End ValidateDataSchema.

(** ** Strings and paths *)

Lemma string_app_cons (c : ascii) (a b : string) :
  String c a +:+ b = String c (a +:+ b).
Proof. reflexivity. Qed.

Lemma string_app_nil_l (a : string) : "" +:+ a = a.
Proof. reflexivity. Qed.


Lemma string_length_app (a b : string) :
  String.length (a +:+ b) = (String.length a + String.length b)%nat.
Proof.
  induction a as [|x a IH]; [reflexivity|].
  rewrite string_app_cons. simpl. by rewrite IH.
Qed.







Lemma parent_neq (p : path) : p ≠ [] -> parent p ≠ p.
Proof.
  intros Hp Heq. apply (f_equal (@length string)) in Heq.
  unfold parent in Heq.
  destruct (exists_last Hp) as (q & x & ->).
  rewrite removelast_last, length_app in Heq. simpl in Heq. lia.
Qed.

(** ** JSON documents and objects *)

Lemma pyval_nested_ind (P : pyval -> Prop) :
  P PNone -> (forall b, P (PBool b)) -> (forall z, P (PInt z)) ->
  (forall s, P (PStr s)) ->
  (forall l, Forall P l -> P (PList l)) ->
  (forall kvs, Forall (fun kv => P kv.2) kvs -> P (PDict kvs)) ->
  (forall id, P (PObj id)) ->
  forall v, P v.
Proof.
  intros HNone HBool HInt HStr HList HDict HObj.
  fix IH 1. intros [|b|z|s|l|kvs|id].
  - exact HNone.
  - apply HBool.
  - apply HInt.
  - apply HStr.
  - apply HList. induction l as [|x l IHl]; constructor; [apply IH|exact IHl].
  - apply HDict. induction kvs as [|[k x] kvs IHl]; constructor; [apply IH|exact IHl].
  - apply HObj.
Qed.

Lemma mapR_Ok {A B} (f : A -> result B) (l : list A) (ys : list B) :
  mapR f l = Ok ys -> Forall2 (fun x y => f x = Ok y) l ys.
Proof.
  revert ys. induction l as [|x l IH]; intros ys Hm; simpl in Hm.
  - inversion Hm. constructor.
  - destruct (f x) as [y|e] eqn:Hx; [|discriminate].
    destruct (mapR f l) as [ys'|e]; [|discriminate].
    inversion Hm; subst. constructor; auto.
Qed.

Lemma dict_set_fresh (k : scalar) (v : pyval) (d : dict) :
  atom_of k ∉ atom_of <$> d.*1 -> dict_set k v d = (d ++ [(k, v)])%list.
Proof.
  induction d as [|[k' v'] d IH]; intros Hk; [reflexivity|].
  simpl in *. apply not_elem_of_cons in Hk as [Hne Hk].
  unfold scalar_eqb. rewrite bool_decide_eq_false_2 by congruence.
  by rewrite IH.
Qed.

Lemma dict_of_pairs_acc (l acc : dict) :
  NoDup (atom_of <$> ((acc ++ l)%list).*1) ->
  fold_left (fun d kv => dict_set kv.1 kv.2 d) l acc = (acc ++ l)%list.
Proof.
  revert acc. induction l as [|[k v] l IH]; intros acc Hnd; simpl.
  - by rewrite app_nil_r.
  - rewrite dict_set_fresh.
    + rewrite IH; rewrite <- app_assoc; [reflexivity|exact Hnd].
    + rewrite !fmap_app in Hnd. apply NoDup_app in Hnd as (_ & Hdis & _).
      intros Hin. apply (Hdis _ Hin). simpl. left.
Qed.

(** A list of pairs with pairwise different keys is the dictionary it
    builds. *)
Lemma dict_of_pairs_nodup (l : dict) :
  NoDup (atom_of <$> l.*1) -> dict_of_pairs l = l.
Proof. intros Hnd. unfold dict_of_pairs. by rewrite dict_of_pairs_acc. Qed.

(** What [json.load] builds from the document of a faithful object is
    the object. *)
Lemma of_json_to_json (v : pyval) :
  forall doc, to_json v = Ok doc -> json_faithful v = true -> of_json doc = v.
Proof.
  induction v as [|b|z|s|l IH|kvs IH|id] using pyval_nested_ind;
    intros doc Hto Hf; simpl in Hto; try (by inversion Hto).
  - destruct (mapR to_json l) as [items|e] eqn:Hm; [|discriminate].
    inversion Hto; subst. simpl. f_equal.
    apply mapR_Ok in Hm. simpl in Hf.
    revert IH Hf. induction Hm as [|x j l items Hx Hm IHm]; intros IH Hf; [reflexivity|].
    simpl in Hf. apply andb_true_iff in Hf as [Hfx Hfl].
    inversion IH; subst. simpl. f_equal; auto.
  - destruct (mapR _ kvs) as [members|e] eqn:Hm; [|discriminate].
    inversion Hto; subst. simpl. f_equal.
    apply mapR_Ok in Hm. simpl in Hf.
    apply andb_true_iff in Hf as [Hf Hnd]. apply bool_decide_eq_true in Hnd.
    assert (Hmap : map (fun m => (SStr m.1, of_json m.2)) members = kvs).
    { clear Hnd. revert IH Hf.
      induction Hm as [|[k x] m kvs members Hx Hm IHm]; intros IH Hf; [reflexivity|].
      simpl in Hf. apply andb_true_iff in Hf as [Hfx Hfl].
      inversion IH; subst. simpl in *.
      destruct (to_json x) as [j|e] eqn:Hj; [|discriminate].
      inversion Hx; subst. simpl.
      destruct k as [| | |s]; try discriminate. simpl.
      f_equal; [|by auto]. f_equal. auto. }
    rewrite Hmap. by apply dict_of_pairs_nodup.
Qed.

(** The encoder accepts every faithful object. *)
Lemma to_json_faithful (v : pyval) :
  json_faithful v = true -> exists doc, to_json v = Ok doc.
Proof.
  induction v as [|b|z|s|l IH|kvs IH|id] using pyval_nested_ind;
    intros Hf; simpl; eauto; try discriminate.
  - assert (Hl : exists items, mapR to_json l = Ok items).
    { simpl in Hf. induction IH as [|x l Hx IH IHl]; [simpl; eauto|].
      simpl in Hf. apply andb_true_iff in Hf as [Hfx Hfl].
      destruct (Hx Hfx) as (j & Hj). destruct (IHl Hfl) as (js & Hjs).
      simpl. rewrite Hj, Hjs. eauto. }
    destruct Hl as (items & ->). eauto.
  - assert (Hl : exists members,
               mapR (fun kv => match to_json kv.2 with
                               | Raise e => Raise e
                               | Ok j => Ok (json_key kv.1, j)
                               end) kvs = Ok members).
    { simpl in Hf. apply andb_true_iff in Hf as [Hf _].
      induction IH as [|[k x] kvs Hx IH IHl]; [simpl; eauto|].
      simpl in Hf. apply andb_true_iff in Hf as [Hfx Hfl].
      destruct k as [| | |s]; try discriminate.
      destruct (Hx Hfx) as (j & Hj). destruct (IHl Hfl) as (js & Hjs).
      simpl in *. rewrite Hj, Hjs. eauto. }
    destruct Hl as (members & ->). eauto.
Qed.

(** ** Saving and loading *)

Section Serialization.
Context `{L : Libraries}.

Lemma writable_nonempty (fs : tree) (p : path) : writable fs p -> p ≠ [].
Proof. intros [_ Hd] ->. discriminate. Qed.

(** [get_size] returns on every file of a size the system can hold. *)
Lemma get_size_file (p : path) (st : state) (c : string) :
  st_fs st !! p = Some (File c) -> p ≠ [] -> fits_st_size c ->
  exists size, get_size p st = (Ok size, st).
Proof.
  intros Hp Hne Hfit. unfold get_size, getsize, bind, fs_read, fs_lookup.
  destruct p as [|x p]; [done|]. rewrite Hp.
  set (n := Z.of_nat (String.length c)). unfold fits_st_size in Hfit. fold n in Hfit.
  assert (0 <= n) by lia.
  destruct (n <? 1024) eqn:E1; [unfold ret; eauto|]. apply Z.ltb_ge in E1.
  destruct (n <? 1024 ^ 2) eqn:E2.
  - apply Z.ltb_lt in E2.
    destruct (truediv_pow2_exact n 10) as (y & Hy & _); [lia|lia|].
    change (2 ^ 10) with 1024 in Hy. unfold lift, ret. rewrite Hy. eauto.
  - apply Z.ltb_ge in E2.
    destruct (truediv_no_overflow n (1024 ^ 2)) as (y & Hy); [lia|lia| |].
    { change (Z.log2 (1024 ^ 2)) with 20.
      assert (Z.log2 n < 63); [|lia]. apply Z.log2_lt_pow2; lia. }
    unfold lift, ret. rewrite Hy. eauto.
Qed.

(** Opening a writable place and writing a text leaves exactly that
    text there. *)
Lemma open_write (p : path) (text : string) (st : state) :
  writable (st_fs st) p ->
  (fs_update (open_w p) ;;; write_out p (text, None)) st
  = (Ok tt, with_fs (<[p := File text]> (st_fs st)) st).
Proof.
  intros Hw. pose proof (writable_nonempty _ _ Hw) as Hne.
  destruct Hw as [Hpar Hd].
  unfold bind, fs_update, open_w, write_out, isdir in *. rewrite Hpar.
  assert (Hopen : match fs_lookup (st_fs st) p with
                  | Some Dir => Raise (IsADirectoryError p)
                  | _ => Ok (<[p := File ""]> (st_fs st))
                  end = Ok (<[p := File ""]> (st_fs st)))
    by (destruct (fs_lookup (st_fs st) p) as [[|c]|]; done).
  rewrite Hopen. simpl. unfold append_file.
  rewrite lookup_insert_eq. by rewrite insert_insert_eq.
Qed.

Lemma saved_file (p : path) (text : string) (st : state) :
  st_fs (with_fs (<[p := File text]> (st_fs st)) st) !! p = Some (File text).
Proof. simpl. apply lookup_insert_eq. Qed.


Lemma save_json_run (p : path) (d : dict) (indent : Z) (st : state) (doc : json) :
  writable (st_fs st) p ->
  to_json (PDict d) = Ok doc ->
  fits_st_size (json_text indent doc) ->
  exists size,
    save_json p d indent st
    = (Ok tt, logged INFO (JsonSaved p size)
                (with_fs (<[p := File (json_text indent doc)]> (st_fs st)) st)).
Proof.
  intros Hw Hdoc Hfit. unfold save_json, json_dump. rewrite Hdoc.
  pose proof (open_write p (json_text indent doc) st Hw) as Hrun.
  destruct (get_size_file p _ _ (saved_file p (json_text indent doc) st))
    as (size & Hsize); [eauto using writable_nonempty|assumption|].
  exists size. unfold bind in *.
  destruct (fs_update (open_w p) st) as [[[]|e] st1]; [|discriminate].
  rewrite Hrun, Hsize. reflexivity.
Qed.


Lemma read_saved (p : path) (text : string) (fs : tree) :
  p ≠ [] -> read_file p (<[p := File text]> fs) = Ok text.
Proof.
  intros Hne. unfold read_file, fs_lookup.
  destruct p; [done|]. by rewrite lookup_insert_eq.
Qed.

Lemma get_size_state (p : path) (st : state) : (get_size p st).2 = st.
Proof.
  unfold get_size, getsize, bind, fs_read, lift, ret. simpl.
  destruct (fs_lookup (st_fs st) p) as [[|c]|]; simpl; try reflexivity.
  all: repeat match goal with
         | |- context [if ?b then _ else _] => destruct b
         | |- context [truediv ?a ?b] => destruct (truediv a b)
         end; reflexivity.
Qed.








End Serialization.

(** ** setup_logger *)

(** [makedirs] adds directories only. *)
Lemma mkdir_exist_ok_files (p k : path) (fs fs' : tree) (r : result unit) (c : string) :
  mkdir_exist_ok p fs = (r, fs') ->
  fs_lookup fs' k = Some (File c) -> fs_lookup fs k = Some (File c).
Proof.
  intros Hm Hk.
  destruct (mkdir_exist_ok_cases p fs) as [(E & Hp & _) | [(E & _) | (e & E & _)]];
    rewrite E in Hm; inversion Hm; subst; try assumption.
  rewrite fs_lookup_insert in Hk by eauto using fs_lookup_None_nonempty.
  case_decide; [discriminate|assumption].
Qed.

Lemma makedirs_rev_files (rp : list string) :
  forall (fs fs' : tree) (r : result unit) (k : path) (c : string),
    makedirs_rev rp fs = (r, fs') ->
    fs_lookup fs' k = Some (File c) -> fs_lookup fs k = Some (File c).
Proof.
  induction rp as [|tail rhead IH]; intros fs fs' r k c Hm Hk.
  - simpl in Hm. eauto using mkdir_exist_ok_files.
  - rewrite makedirs_rev_cons in Hm.
    assert (Hhead : forall r1 fs1, makedirs_head rhead fs = (r1, fs1) ->
              fs_lookup fs1 k = Some (File c) -> fs_lookup fs k = Some (File c)).
    { unfold makedirs_head. intros r1 fs1 Hh Hk1.
      destruct (negb (bool_decide (rhead = [])) && negb (exists_ fs (rev rhead)));
        [|by inversion Hh; subst].
      destruct (makedirs_rev rhead fs) as [[u|e] fs2] eqn:Hrec.
      - inversion Hh; subst. eauto.
      - destruct (is_FileExistsError e); inversion Hh; subst; eauto. }
    destruct (makedirs_head rhead fs) as [[u|e] fs1] eqn:Hh.
    + eapply Hhead; [reflexivity|]. eauto using mkdir_exist_ok_files.
    + inversion Hm; subst. eauto.
Qed.

(** With no file in the way, [makedirs] returns. *)
Lemma makedirs_rev_succeeds (rp : list string) :
  forall fs : tree,
    no_file_on fs (rev rp) ->
    exists fs', makedirs_rev rp fs = (Ok tt, fs').
Proof.
  induction rp as [|tail rhead IH]; intros fs Hfree.
  - exists fs. simpl. by apply mkdir_exist_ok_settled; [|left].
  - rewrite makedirs_rev_cons.
    assert (Hprefix : rev rhead `prefix_of` rev (tail :: rhead))
      by (simpl; by apply prefix_app_r).
    assert (Hhead : exists fs1, makedirs_head rhead fs = (Ok tt, fs1)
                                /\ isdir fs1 (rev rhead) = true).
    { unfold makedirs_head.
      destruct (bool_decide (rhead = [])) eqn:Hnil; simpl.
      { apply bool_decide_eq_true in Hnil. subst. eauto. }
      destruct (exists_ fs (rev rhead)) eqn:Hex; simpl.
      { exists fs. split; [reflexivity|]. unfold exists_, isdir in *.
        destruct (fs_lookup fs (rev rhead)) as [[|c]|] eqn:Hl; try done.
        by destruct (Hfree _ c Hprefix). }
      destruct (IH fs) as (fs1 & Hrec).
      { intros q c Hq. apply Hfree. by etrans. }
      rewrite Hrec. exists fs1. split; [reflexivity|].
      by apply makedirs_rev_ok in Hrec as [? _]. }
    destruct Hhead as (fs1 & Hh & Hd). rewrite Hh.
    destruct (mkdir_exist_ok_cases (rev (tail :: rhead)) fs1)
      as [(E & _) | [(E & _) | (e & E & Hnd & _)]]; rewrite E; eauto.
    exfalso. unfold mkdir_exist_ok, mkdir in E.
    rewrite parent_rev_cons in E. unfold isdir in Hd, Hnd.
    destruct (fs_lookup fs1 (rev rhead)) as [[|c]|]; try discriminate.
    destruct (fs_lookup fs1 (rev (tail :: rhead))) as [[|c]|] eqn:Hl; try discriminate.
    assert (Hfile : fs_lookup fs (rev (tail :: rhead)) = Some (File c)).
    { unfold makedirs_head in Hh.
      destruct (negb (bool_decide (rhead = [])) && negb (exists_ fs (rev rhead)));
        [|by inversion Hh; subst].
      destruct (makedirs_rev rhead fs) as [[u|e'] fs2] eqn:Hrec.
      - inversion Hh; subst. eauto using makedirs_rev_files.
      - destruct (is_FileExistsError e'); inversion Hh; subst.
        eauto using makedirs_rev_files. }
    by apply (Hfree _ c (reflexivity _)).
Qed.

Lemma pretty_year_length (y : Z) :
  1000 <= y <= 9999 -> String.length (pretty y) = 4%nat.
Proof.
  intros Hy.
  assert (Hall : forallb (fun i => Nat.eqb (String.length (pretty (1000 + Z.of_nat i))) 4)
                   (seq 0 (Z.to_nat 9000)) = true) by (vm_compute; reflexivity).
  rewrite forallb_forall in Hall.
  specialize (Hall (Z.to_nat (y - 1000))).
  rewrite Z2Nat.id in Hall by lia.
  replace (1000 + (y - 1000)) with y in Hall by lia.
  apply Nat.eqb_eq, Hall, in_seq. lia.
Qed.

Lemma two_digits_spec (d : Z) :
  0 <= d <= 99 ->
  String.length (two_digits d) = 2%nat
  /\ forall d', 0 <= d' <= 99 -> two_digits d = two_digits d' -> d = d'.
Proof.
  intros Hd.
  assert (Hall : forallb (fun i =>
                    Nat.eqb (String.length (two_digits (Z.of_nat i))) 2
                    && forallb (fun j =>
                         implb (String.eqb (two_digits (Z.of_nat i))
                                           (two_digits (Z.of_nat j)))
                               (Nat.eqb i j)) (seq 0 100))
                   (seq 0 100) = true) by (vm_compute; reflexivity).
  rewrite forallb_forall in Hall.
  specialize (Hall (Z.to_nat d)). rewrite Z2Nat.id in Hall by lia.
  destruct (andb_prop _ _ (Hall ltac:(apply in_seq; lia))) as [Hlen Hinj].
  split; [by apply Nat.eqb_eq|].
  intros d' Hd' Heq. rewrite forallb_forall in Hinj.
  specialize (Hinj (Z.to_nat d') ltac:(apply in_seq; lia)).
  rewrite Z2Nat.id in Hinj by lia.
  rewrite (proj2 (String.eqb_eq _ _) Heq) in Hinj. simpl in Hinj.
  apply Nat.eqb_eq in Hinj. lia.
Qed.

Lemma string_app_inj_length (a a' b b' : string) :
  String.length a = String.length a' -> a +:+ b = a' +:+ b' -> a = a' /\ b = b'.
Proof.
  revert a'. induction a as [|x a IH]; intros [|x' a'] Hlen Heq; try discriminate.
  - done.
  - rewrite !string_app_cons in Heq. inversion Heq; subst.
    destruct (IH a') as [-> ->]; auto.
Qed.

(** One name per day. *)
Lemma strftime_Ymd_inj (d1 d2 : date) :
  valid_date d1 -> valid_date d2 ->
  strftime_Ymd d1 = strftime_Ymd d2 -> d1 = d2.
Proof.
  intros (Hy1 & Hm1 & Hd1) (Hy2 & Hm2 & Hd2) Heq. unfold strftime_Ymd in Heq.
  apply string_app_inj_length in Heq as [Hy Heq];
    [|by rewrite !pretty_year_length].
  apply (string_app_inj_length "-" "-") in Heq as [_ Heq]; [|done].
  destruct (two_digits_spec (month d1)) as [Hl1 Hi1]; [lia|].
  destruct (two_digits_spec (month d2)) as [Hl2 _]; [lia|].
  apply string_app_inj_length in Heq as [Hm Heq]; [|congruence].
  apply (string_app_inj_length "-" "-") in Heq as [_ Heq]; [|done].
  destruct (two_digits_spec (day d1)) as [_ Hi3]; [lia|].
  apply (inj pretty) in Hy. apply Hi1 in Hm; [|lia]. apply Hi3 in Heq; [|lia].
  destruct d1, d2; simpl in *; congruence.
Qed.

(** C8. On a tree where no file stands in the way of the log directory
    and the log path is not a directory, [setup_logger] returns a
    logger whose first handler is a rotating file handler on the file
    named after the date of the call, [YYYY-MM-DD.log], inside the log
    directory, with [maxBytes = max_log_size * 1024 * 1024] and
    [backupCount = backup_count]; afterwards the directory and the
    file are there.  Different days give different file names. *)
Theorem setup_logger_configures (name : string) (log_level : Z) (log_dir : path)
    (console_output : bool) (max_log_size backup_count : Z) (now : date)
    (st : state) :
  let log_filepath := (log_dir ++ [strftime_Ymd now +:+ ".log"])%list in
  no_file_on (st_fs st) log_dir ->
  isdir (st_fs st) log_filepath = false ->
  exists logger st',
    setup_logger name log_level log_dir console_output max_log_size
      backup_count now st = (Ok logger, st')
    /\ logger_handlers logger
       = RotatingFileHandler log_filepath (max_log_size * 1024 * 1024)
           backup_count "utf-8" log_format
         :: (if console_output then [StreamHandler "stdout" log_format] else [])
    /\ parent log_filepath = log_dir
    /\ isdir (st_fs st') log_dir = true
    /\ (exists c, fs_lookup (st_fs st') log_filepath = Some (File c))
    /\ (forall other : date,
          valid_date now -> valid_date other -> other ≠ now ->
          strftime_Ymd other +:+ ".log" ≠ strftime_Ymd now +:+ ".log").
Proof.
  intros log_filepath Hfree Hnd.
  assert (Hpar : parent log_filepath = log_dir).
  { unfold parent, log_filepath. apply removelast_last. }
  assert (Hne : log_filepath ≠ []).
  { unfold log_filepath. intros Heq. by apply app_eq_nil in Heq as [_ ?]. }
  destruct (makedirs_rev_succeeds (rev log_dir) (st_fs st)) as (fs1 & Hmk).
  { by rewrite rev_involutive. }
  pose proof (makedirs_rev_ok _ _ _ Hmk) as [Hd1 _]. rewrite rev_involutive in Hd1.
  assert (Hsame : fs1 !! log_filepath = st_fs st !! log_filepath).
  { eapply makedirs_rev_longer; [exact Hmk|].
    unfold log_filepath. rewrite length_rev, length_app. simpl. lia. }
  assert (Hl1 : fs_lookup fs1 log_filepath = fs_lookup (st_fs st) log_filepath).
  { unfold fs_lookup. by destruct log_filepath. }
  assert (Hopen : exists fs2 c, open_a log_filepath fs1 = Ok fs2
                    /\ fs_lookup fs2 log_filepath = Some (File c)
                    /\ isdir fs2 log_dir = true).
  { unfold open_a. rewrite Hpar. unfold isdir in Hd1, Hnd.
    destruct (fs_lookup fs1 log_dir) as [[|c]|] eqn:Hdir; try discriminate.
    rewrite Hl1.
    destruct (fs_lookup (st_fs st) log_filepath) as [[|c]|] eqn:Hfile;
      try discriminate.
    - exists fs1, c. rewrite Hl1. unfold isdir. by rewrite Hdir.
    - exists (<[log_filepath := File ""]> fs1), "".
      unfold isdir. rewrite !fs_lookup_insert by done.
      rewrite decide_True by done.
      rewrite decide_False; [by rewrite Hdir|].
      intros Heq. rewrite Heq in Hpar. by apply (parent_neq log_dir); [congruence|]. }
  destruct Hopen as (fs2 & c & Hopen & Hfile & Hdir).
  eexists _, _. split; [|split; [|split; [|split; [|split]]]].
  - unfold setup_logger, bind, os_makedirs, fs_update, makedirs. rewrite Hmk.
    fold log_filepath. simpl st_fs. rewrite Hopen. reflexivity.
  - reflexivity.
  - exact Hpar.
  - exact Hdir.
  - eauto.
  - intros other Hv Hv' Hother Heq. apply Hother.
    apply string_app_inj_length in Heq as [Heq _].
    + by apply strftime_Ymd_inj.
    + destruct Hv as (? & ? & ?), Hv' as (? & ? & ?). unfold strftime_Ymd.
      rewrite !string_length_app, !pretty_year_length by lia.
      destruct (two_digits_spec (month now)) as [-> _]; [lia|].
      destruct (two_digits_spec (month other)) as [-> _]; [lia|].
      destruct (two_digits_spec (day now)) as [-> _]; [lia|].
      destruct (two_digits_spec (day other)) as [-> _]; [lia|]. reflexivity.
Qed.

(** * The statements on concrete inputs *)

#[local] Existing Instance Ref.libraries.



(** C2: with the default keywords the frame read back has the index as
    one more column. *)
Example save_csv_adds_index_column :
  let saved := save_csv churn_frame ["data.csv"] [] empty_state in
  (load_csv ["data.csv"] [] saved.2).1
  = Ok {| df_columns := [("Unnamed: 0", "int64"); ("churn", "int64")];
          df_index := [SInt 0; SInt 1];
          df_rows := [[SInt 0; SInt 1]; [SInt 1; SInt 0]] |}.
Proof. vm_compute. reflexivity. Qed.

Lemma writable_empty (x : string) : writable (st_fs empty_state) [x].
Proof. split; reflexivity. Qed.



Example get_size_rounds_half_to_even :
  (get_size ["f"] (one_file ["f"] (filler 1152))).1 = Ok "1.12 KB"
  /\ (get_size ["f"] (one_file ["f"] (filler 1408))).1 = Ok "1.38 KB".
Proof. vm_compute. split; reflexivity. Qed.

(** C4: a schema without a [dtypes] entry makes the call raise although
    every required column is there. *)
Lemma validate_data_schema_needs_dtypes :
  let df := frame_of [("customer_id", "object"); ("last_purchase_date", "object")] in
  in_columns (SStr "customer_id") df = true
  /\ in_columns (SStr "last_purchase_date") df = true
  /\ (validate_data_schema df ["schema.yaml"]
        (one_file ["schema.yaml"] sample_schema_no_dtypes)).1
     = Raise (BoxKeyError "dtypes").
Proof. vm_compute. repeat split; reflexivity. Qed.

(** C4: a label that heads two columns makes the dtype check raise. *)
Example validate_data_schema_duplicate_label :
  let df := frame_of [("customer_id", "object"); ("last_purchase_date", "object");
                      ("customer_id", "int64")] in
  (validate_data_schema df ["schema.yaml"]
     (one_file ["schema.yaml"] sample_schema)).1
  = Raise (AttributeError "'DataFrame' object has no attribute 'dtype'").
Proof. vm_compute. reflexivity. Qed.

Lemma validate_data_schema_dtypes_warn_only_witness :
  let df := frame_of [("customer_id", "object"); ("last_purchase_date", "object");
                      ("churn", "float64")] in
  let st := one_file ["schema.yaml"] sample_schema in
  validate_data_schema df ["schema.yaml"] st
  = (Ok true,
     {| st_fs := st_fs st;
        st_log := [(INFO, YamlLoaded ["schema.yaml"]);
                   (WARNING, DtypeMismatch (SStr "customer_id") "object" (PStr "str"));
                   (WARNING, DtypeMismatch (SStr "churn") "float64" (PStr "int"));
                   (INFO, SchemaPassed)] |}).
Proof.
  intros df st.
  rewrite (validate_data_schema_dtypes_warn_only df ["schema.yaml"] st
             (logged INFO (YamlLoaded ["schema.yaml"]) st)
             [(SStr "required_columns",
               PList [PStr "customer_id"; PStr "last_purchase_date"]);
              (SStr "dtypes",
               PDict [(SStr "customer_id", PStr "str"); (SStr "churn", PStr "int")])]
             (PList [PStr "customer_id"; PStr "last_purchase_date"])
             {[AStr "customer_id"; AStr "last_purchase_date"]}
             [(SStr "customer_id", PStr "str"); (SStr "churn", PStr "int")]).
  - vm_compute. reflexivity.
  - vm_compute. reflexivity.
  - reflexivity.
  - vm_compute. reflexivity.
  - apply (bool_decide_eq_true_1 _). vm_compute. reflexivity.
  - reflexivity.
  - intros col expected s Hin Hcol.
    repeat (apply elem_of_cons in Hin as [Hin | Hin];
            [simplify_eq; vm_compute; lia|]).
    by apply elem_of_nil in Hin.
Defined.


Example create_directories_makes_parents :
  let once := create_directories [["artifacts"; "models"]; ["logs"]] true empty_state in
  once.1 = Ok tt
  /\ isdir (st_fs once.2) ["artifacts"] = true
  /\ isdir (st_fs once.2) ["artifacts"; "models"] = true
  /\ isdir (st_fs once.2) ["logs"] = true
  /\ st_log once.2 = [(INFO, CreatedDirectory ["artifacts"; "models"]);
                      (INFO, CreatedDirectory ["logs"])].
Proof. vm_compute. repeat split; reflexivity. Qed.

Example create_directories_file_in_the_way :
  let st := one_file ["artifacts"] "" in
  let once := create_directories [["logs"]; ["artifacts"; "models"]] true st in
  let twice := create_directories [["logs"]; ["artifacts"; "models"]] true once.2 in
  once.1 = Raise (NotADirectoryError ["artifacts"; "models"])
  /\ twice.1 = once.1 /\ isdir (st_fs twice.2) ["logs"] = true.
Proof. vm_compute. repeat split; reflexivity. Qed.

(** C6 on a missing file, a file that does not parse and an empty
    file. *)
Example read_yaml_examples :
  (read_yaml ["config.yaml"] empty_state).1 = Raise (FileNotFoundError ["config.yaml"])
  /\ st_log (read_yaml ["config.yaml"] empty_state).2
     = [(ERROR, YamlReadError ["config.yaml"] (FileNotFoundError ["config.yaml"]))]
  /\ (read_yaml ["config.yaml"] (one_file ["config.yaml"] "{")).1
     = Raise (YAMLError "could not parse the stream")
  /\ (read_yaml ["config.yaml"] (one_file ["config.yaml"] "")).1
     = Raise (BoxValueError "YAML file is empty")
  /\ (read_yaml ["config.yaml"] (one_file ["config.yaml"] sample_schema_no_dtypes)).1
     = Ok [(SStr "required_columns",
            PList [PStr "customer_id"; PStr "last_purchase_date"])].
Proof. vm_compute. repeat split; reflexivity. Qed.



(** C8 on the fourth of November 2026, with the defaults of the
    source. *)
Lemma setup_logger_configures_witness :
  exists logger st',
    setup_logger "luxottica_churn" 20 ["logs"] true 10 5
      {| year := 2026; month := 11; day := 4 |} empty_state = (Ok logger, st')
    /\ logger_handlers logger
       = [RotatingFileHandler ["logs"; "2026-11-04.log"] 10485760 5 "utf-8" log_format;
          StreamHandler "stdout" log_format]
    /\ isdir (st_fs st') ["logs"] = true
    /\ (exists c, fs_lookup (st_fs st') ["logs"; "2026-11-04.log"] = Some (File c)).
Proof.
  destruct (setup_logger_configures "luxottica_churn" 20 ["logs"] true 10 5
              {| year := 2026; month := 11; day := 4 |} empty_state)
    as (logger & st' & Hrun & Hh & _ & Hd & Hf & _).
  - intros q c Hq Hl. destruct q as [|x q]; [discriminate|].
    unfold fs_lookup in Hl. simpl in Hl. by rewrite lookup_empty in Hl.
  - reflexivity.
  - exists logger, st'. split; [exact Hrun|]. split; [rewrite Hh; reflexivity|].
    split; [exact Hd|exact Hf].
Defined.

(** C9 on a file that holds [false]. *)
Lemma read_yaml_rejects_falsy_witness :
  read_yaml ["params.yaml"] (one_file ["params.yaml"] "false")
  = (Raise (BoxValueError "YAML file is empty"),
     logged ERROR
       (YamlReadError ["params.yaml"] (BoxValueError "YAML file is empty"))
       (one_file ["params.yaml"] "false"))
  /\ is_ValueError (BoxValueError "YAML file is empty") = true.
Proof.
  apply (read_yaml_rejects_falsy ["params.yaml"] (one_file ["params.yaml"] "false")
           "false" (PBool false)).
  - reflexivity.
  - vm_compute. reflexivity.
  - right. left.
Defined.

Example read_yaml_falsy_documents :
  Forall (fun text =>
            (read_yaml ["params.yaml"] (one_file ["params.yaml"] text)).1
            = Raise (BoxValueError "YAML file is empty"))
    [""; "false"; "0"; Ref.quote ""; "[]"; "{}"].
Proof. repeat constructor. Qed.


(** The [__main__] block of common.py: a file written by [save_json]
    is read back by [read_yaml]. *)
Example main_block :
  let d := [(SStr "test_key", PStr "test_value")] in
  let made := create_directories [["test_dir"]] true empty_state in
  let saved := save_json ["test_config.yaml"] d 4 made.2 in
  made.1 = Ok tt /\ saved.1 = Ok tt
  /\ (read_yaml ["test_config.yaml"] saved.2).1 = Ok d.
Proof. vm_compute. repeat split; reflexivity. Qed.

(** * Further properties *)

#[local] Remove Hints Ref.libraries : typeclass_instances.

(** ** What JSON gives back *)

Lemma of_json_image (v : pyval) :
  forall doc, to_json v = Ok doc -> of_json doc = json_image v.
Proof.
  induction v as [|b|z|s|l IH|kvs IH|id] using pyval_nested_ind;
    intros doc Hto; simpl in Hto; try (by inversion Hto).
  - destruct (mapR to_json l) as [items|e] eqn:Hm; [|discriminate].
    inversion Hto; subst. simpl. f_equal.
    apply mapR_Ok in Hm.
    revert IH. induction Hm as [|x j l items Hx Hm IHm]; intros IH; [reflexivity|].
    inversion IH; subst. simpl. f_equal; auto.
  - destruct (mapR _ kvs) as [members|e] eqn:Hm; [|discriminate].
    inversion Hto; subst. simpl. do 2 f_equal.
    apply mapR_Ok in Hm.
    revert IH. induction Hm as [|[k x] m kvs members Hx Hm IHm]; intros IH;
      [reflexivity|].
    inversion IH; subst. simpl in *.
    destruct (to_json x) as [j|e] eqn:Hj; [|discriminate].
    inversion Hx; subst. simpl. f_equal; [|by auto]. f_equal. auto.
Qed.

Lemma to_json_serialisable (v : pyval) :
  json_serialisable v = true -> exists doc, to_json v = Ok doc.
Proof.
  induction v as [|b|z|s|l IH|kvs IH|id] using pyval_nested_ind;
    intros Hs; simpl; eauto; try discriminate.
  - assert (Hl : exists items, mapR to_json l = Ok items).
    { simpl in Hs. induction IH as [|x l Hx IH IHl]; [simpl; eauto|].
      simpl in Hs. apply andb_true_iff in Hs as [Hsx Hsl].
      destruct (Hx Hsx) as (j & Hj). destruct (IHl Hsl) as (js & Hjs).
      simpl. rewrite Hj, Hjs. eauto. }
    destruct Hl as (items & ->). eauto.
  - assert (Hl : exists members,
               mapR (fun kv => match to_json kv.2 with
                               | Raise e => Raise e
                               | Ok j => Ok (json_key kv.1, j)
                               end) kvs = Ok members).
    { simpl in Hs. induction IH as [|[k x] kvs Hx IH IHl]; [simpl; eauto|].
      simpl in Hs. apply andb_true_iff in Hs as [Hsx Hsl].
      destruct (Hx Hsx) as (j & Hj). destruct (IHl Hsl) as (js & Hjs).
      simpl in *. rewrite Hj, Hjs. eauto. }
    destruct Hl as (members & ->). eauto.
Qed.

(** The encoder raises on the other objects, and only a [TypeError]. *)
Lemma to_json_unserialisable (v : pyval) :
  json_serialisable v = false ->
  to_json v = Raise (TypeError "Object is not JSON serializable").
Proof.
  induction v as [|b|z|s|l IH|kvs IH|id] using pyval_nested_ind;
    intros Hs; simpl in *; try discriminate; try reflexivity.
  - assert (Hl : mapR to_json l
                 = Raise (TypeError "Object is not JSON serializable")).
    { induction IH as [|x l Hx IH IHl]; [discriminate|].
      simpl in Hs. simpl.
      destruct (json_serialisable x) eqn:Hsx.
      - destruct (to_json_serialisable x Hsx) as (j & ->).
        simpl in Hs. by rewrite (IHl Hs).
      - by rewrite (Hx eq_refl). }
    by rewrite Hl.
  - assert (Hl : mapR (fun kv => match to_json kv.2 with
                                 | Raise e => Raise e
                                 | Ok j => Ok (json_key kv.1, j)
                                 end) kvs
                 = Raise (TypeError "Object is not JSON serializable")).
    { induction IH as [|[k x] kvs Hx IH IHl]; [discriminate|].
      simpl in Hs, Hx. simpl.
      destruct (json_serialisable x) eqn:Hsx.
      - destruct (to_json_serialisable x Hsx) as (j & ->).
        simpl in Hs. by rewrite (IHl Hs).
      - by rewrite (Hx eq_refl). }
    by rewrite Hl.
Qed.

Lemma dict_set_keys (k : scalar) (v : pyval) (d : dict) :
  atom_of <$> (dict_set k v d).*1
  = if bool_decide (atom_of k ∈ atom_of <$> d.*1)
    then atom_of <$> d.*1
    else ((atom_of <$> d.*1) ++ [atom_of k])%list.
Proof.
  induction d as [|[k' v'] d IH]; [reflexivity|].
  cbn [dict_set]. unfold scalar_eqb.
  destruct (decide (atom_of k' = atom_of k)) as [Heq|Hne].
  - rewrite bool_decide_eq_true_2 by done. rewrite !fmap_cons. cbn [fst].
    rewrite bool_decide_eq_true_2; [reflexivity|]. rewrite Heq. left.
  - rewrite bool_decide_eq_false_2 by done. rewrite !fmap_cons, IH. cbn [fst].
    destruct (decide (atom_of k ∈ atom_of <$> d.*1)) as [Hin|Hnin].
    + rewrite !bool_decide_eq_true_2; [reflexivity| |done]. by right.
    + rewrite !bool_decide_eq_false_2; [reflexivity| |done].
      intros Hin. apply elem_of_cons in Hin as [?|?]; congruence.
Qed.

Lemma dict_set_nodup (k : scalar) (v : pyval) (d : dict) :
  NoDup (atom_of <$> d.*1) -> NoDup (atom_of <$> (dict_set k v d).*1).
Proof.
  intros Hnd. rewrite dict_set_keys. case_bool_decide as Hin; [assumption|].
  apply NoDup_app. repeat split; [assumption| |apply NoDup_singleton].
  intros a Ha Hk. apply list_elem_of_singleton in Hk. by subst.
Qed.

Lemma dict_set_Forall (Pk : scalar -> Prop) (Pv : pyval -> Prop)
    (k : scalar) (v : pyval) (d : dict) :
  Pk k -> Pv v ->
  Forall (fun kv => Pk kv.1 /\ Pv kv.2) d ->
  Forall (fun kv => Pk kv.1 /\ Pv kv.2) (dict_set k v d).
Proof.
  intros Hk Hv Hd. induction Hd as [|[k' v'] d [Hk' Hv'] Hd IH]; cbn [dict_set].
  - by repeat constructor.
  - destruct (scalar_eqb k' k); constructor; auto.
Qed.

Lemma dict_of_pairs_inv (Pk : scalar -> Prop) (Pv : pyval -> Prop) (l : dict) :
  Forall (fun kv => Pk kv.1 /\ Pv kv.2) l ->
  forall acc,
    Forall (fun kv => Pk kv.1 /\ Pv kv.2) acc ->
    NoDup (atom_of <$> acc.*1) ->
    Forall (fun kv => Pk kv.1 /\ Pv kv.2)
      (fold_left (fun d kv => dict_set kv.1 kv.2 d) l acc)
    /\ NoDup (atom_of <$> (fold_left (fun d kv => dict_set kv.1 kv.2 d) l acc).*1).
Proof.
  induction 1 as [|[k v] l [Hk Hv] Hl IH]; intros acc Hacc Hnd; [done|].
  cbn [fold_left]. apply IH.
  - by apply dict_set_Forall.
  - by apply dict_set_nodup.
Qed.

(** What JSON gives back is faithfully representable. *)
Lemma json_image_faithful (v : pyval) :
  json_serialisable v = true -> json_faithful (json_image v) = true.
Proof.
  induction v as [|b|z|s|l IH|kvs IH|id] using pyval_nested_ind;
    intros Hs; simpl in *; try reflexivity; try discriminate.
  - induction IH as [|x l Hx IH IHl]; [reflexivity|].
    simpl in *. apply andb_true_iff in Hs as [Hsx Hsl].
    by rewrite (Hx Hsx), (IHl Hsl).
  - destruct (dict_of_pairs_inv
                (fun k => exists s, k = SStr s) (fun x => json_faithful x = true)
                (map (fun kv => (SStr (json_key kv.1), json_image kv.2)) kvs))
      with (acc := @nil (scalar * pyval)) as [HP Hnd].
    + induction IH as [|[k x] kvs Hx IH IHl]; [constructor|].
      simpl in *. apply andb_true_iff in Hs as [Hsx Hsl].
      constructor; [split; [eauto|auto]|auto].
    + constructor.
    + constructor.
    + apply andb_true_iff. split; [|by apply bool_decide_eq_true].
      apply forallb_forall. intros kv Hkv.
      apply list_elem_of_In in Hkv.
      rewrite Forall_forall in HP. destruct (HP _ Hkv) as [[s Hk] Hv].
      by rewrite Hk.
Qed.

(** A second trip through JSON changes nothing more. *)
Lemma json_image_stable (v : pyval) :
  json_serialisable v = true -> json_image (json_image v) = json_image v.
Proof.
  intros Hs. pose proof (json_image_faithful v Hs) as Hf.
  destruct (to_json_faithful _ Hf) as (doc & Hdoc).
  rewrite <- (of_json_image _ _ Hdoc). by apply of_json_to_json.
Qed.

(** ** More on saving and loading *)

Section MoreSerialization.
Context `{L : Libraries}.

(** X1. [load_json] after [save_json], whatever the keys: the
    dictionary comes back with every key replaced by the member name
    [json.dump] writes for it, at every depth, a later item winning
    over an earlier one of the same name; what comes back is
    faithfully representable, so saving it again returns it as it is. *)
Theorem load_json_after_save_json (p : path) (d : dict) (indent : Z)
    (st : state) (doc : json) :
  writable (st_fs st) p ->
  to_json (PDict d) = Ok doc ->
  json_parse (json_text indent doc) = Ok doc ->
  fits_st_size (json_text indent doc) ->
  exists st1 d',
    save_json p d indent st = (Ok tt, st1)
    /\ load_json p st1 = (Ok d', logged INFO (JsonLoaded p) st1)
    /\ d' = dict_of_pairs (map (fun kv => (SStr (json_key kv.1), json_image kv.2)) d)
    /\ json_faithful (PDict d') = true.
Proof.
  intros Hw Hdoc Hparse Hfit.
  destruct (save_json_run p d indent st doc Hw Hdoc Hfit) as (size & Hsave).
  eexists _, _. split; [exact Hsave|]. split; [|split; [reflexivity|]].
  - unfold load_json, json_load, bind, fs_read, lift, ret.
    simpl st_fs. rewrite (read_saved p (json_text indent doc))
      by eauto using writable_nonempty.
    rewrite Hparse. simpl. rewrite (of_json_image (PDict d) doc Hdoc).
    reflexivity.
  - apply (json_image_faithful (PDict d)).
    destruct (json_serialisable (PDict d)) eqn:Hs; [reflexivity|].
    rewrite (to_json_unserialisable _ Hs) in Hdoc. discriminate.
Qed.


End MoreSerialization.

(** ** Reading leaves the tree alone *)

Section Readers.
Context `{L : Libraries}.









(** X4. On a name that is free in a directory of the tree every loader
    raises [FileNotFoundError]; [read_yaml], and [validate_data_schema]
    through it, log the error first, the other helpers leave the log
    as it is. *)
Theorem load_missing_file (p : path) (st : state) :
  isdir (st_fs st) (parent p) = true ->
  fs_lookup (st_fs st) p = None ->
  let e := FileNotFoundError p in
  load_json p st = (Raise e, st)
  /\ load_bin p st = (Raise e, st)
  /\ (forall kw, load_csv p kw st = (Raise e, st))
  /\ load_model p st = (Raise e, st)
  /\ get_size p st = (Raise e, st)
  /\ read_yaml p st = (Raise e, logged ERROR (YamlReadError p e) st)
  /\ (forall df, validate_data_schema df p st
                 = (Raise e, logged ERROR (YamlReadError p e) st)).
Proof.
  intros _ Hp e.
  assert (Hread : read_file p (st_fs st) = Raise e)
    by (unfold read_file; by rewrite Hp).
  assert (Hbin : load_bin p st = (Raise e, st))
    by (unfold load_bin, bind, fs_read; by rewrite Hread).
  assert (Hyaml : read_yaml p st = (Raise e, logged ERROR (YamlReadError p e) st)).
  { unfold read_yaml, read_yaml_body, try_except, bind, fs_read.
    by rewrite Hread. }
  repeat split.
  - unfold load_json, json_load, bind, fs_read. by rewrite Hread.
  - exact Hbin.
  - intros kw. unfold load_csv, bind, fs_read. by rewrite Hread.
  - unfold load_model. by rewrite (bind_Raise _ _ _ _ _ Hbin).
  - unfold get_size, getsize, bind, fs_read. by rewrite Hp.
  - exact Hyaml.
  - intros df. unfold validate_data_schema. by rewrite (bind_Raise _ _ _ _ _ Hyaml).
Qed.

End Readers.

(** ** Writing touches one place *)

Section Writers.
Context `{L : Libraries}.










Lemma dict_set_nonempty (k : scalar) (v : pyval) (d : dict) : dict_set k v d ≠ [].
Proof. destruct d as [|[k' v'] d]; simpl; [done|]. by destruct (scalar_eqb k' k). Qed.

Lemma dict_fold_nonempty (l acc : dict) :
  acc ≠ [] -> fold_left (fun d kv => dict_set kv.1 kv.2 d) l acc ≠ [].
Proof.
  revert acc. induction l as [|kv l IH]; intros acc Hacc; [done|].
  simpl. apply IH, dict_set_nonempty.
Qed.

Lemma dict_of_pairs_nonempty (l : dict) : l ≠ [] -> dict_of_pairs l ≠ [].
Proof.
  unfold dict_of_pairs. destruct l as [|kv l]; [done|]. intros _.
  cbn [fold_left]. apply dict_fold_nonempty, dict_set_nonempty.
Qed.

(** X9. Reading with [read_yaml] what [save_json] wrote, as the
    [__main__] block does, where the YAML loader reads the JSON text
    as JSON does: a dictionary with at least one item comes back (keys
    as JSON names); the empty dictionary does not, [read_yaml] raises
    its [BoxValueError] on the file that holds it. *)
Theorem read_yaml_after_save_json (p : path) (d : dict) (indent : Z)
    (st : state) (doc : json) :
  writable (st_fs st) p ->
  to_json (PDict d) = Ok doc ->
  yaml_safe_load (json_text indent doc) = Ok (of_json doc) ->
  fits_st_size (json_text indent doc) ->
  exists st1,
    save_json p d indent st = (Ok tt, st1)
    /\ (d ≠ [] ->
        exists d', PDict d' = json_image (PDict d)
                   /\ read_yaml p st1 = (Ok d', logged INFO (YamlLoaded p) st1))
    /\ (d = [] ->
        (read_yaml p st1).1 = Raise (BoxValueError "YAML file is empty")).
Proof.
  intros Hw Hdoc Hyaml Hfit.
  destruct (save_json_run p d indent st doc Hw Hdoc Hfit) as (size & Hsave).
  eexists. split; [exact Hsave|].
  assert (Hread : forall lvl msg,
            read_file p (st_fs (logged lvl msg
              (with_fs (<[p := File (json_text indent doc)]> (st_fs st)) st)))
            = Ok (json_text indent doc)).
  { intros. simpl. apply read_saved. eauto using writable_nonempty. }
  pose proof (of_json_image (PDict d) doc Hdoc) as Himg.
  split.
  - intros Hd. eexists. split; [reflexivity|].
    unfold read_yaml, read_yaml_body, try_except, bind, fs_read, lift.
    rewrite Hread, Hyaml, Himg. simpl.
    destruct (dict_of_pairs _) eqn:Hdp; [|reflexivity].
    exfalso. revert Hdp. apply dict_of_pairs_nonempty. by destruct d.
  - intros ->. unfold read_yaml, read_yaml_body, try_except, bind, fs_read, lift.
    rewrite Hread, Hyaml, Himg. reflexivity.
Qed.

End Writers.

(** ** More on create_directories *)

Section MoreDirectories.
Context `{L : Libraries}.



Lemma prefix_snoc_inv (q p : path) (x : string) :
  q `prefix_of` (p ++ [x])%list -> q = (p ++ [x])%list \/ q `prefix_of` p.
Proof.
  intros [k Hk]. destruct k as [|y k _] using rev_ind.
  - left. by rewrite app_nil_r in Hk.
  - right. rewrite app_assoc in Hk. apply app_inj_tail in Hk as [-> _].
    by exists k.
Qed.

(** In a well-formed tree the ancestors of a directory are
    directories. *)
Lemma wf_tree_isdir_prefix (fs : tree) (p q : path) :
  wf_tree fs -> isdir fs p = true -> q `prefix_of` p -> isdir fs q = true.
Proof.
  intros Hwf. revert q. induction p as [|x p IH] using rev_ind; intros q Hd Hq.
  - apply prefix_nil_inv in Hq as ->. reflexivity.
  - apply prefix_snoc_inv in Hq as [-> | Hq]; [assumption|].
    apply IH; [|assumption].
    unfold isdir, fs_lookup in Hd.
    destruct (p ++ [x])%list as [|y r] eqn:Hp; [by destruct p|].
    destruct (fs !! (y :: r)) as [[|c]|] eqn:Hl; try discriminate.
    apply Hwf in Hl. rewrite <- Hp in Hl. unfold parent in Hl.
    by rewrite removelast_last in Hl.
Qed.

Lemma makedirs_ok_no_file (p : path) (fs fs1 : tree) :
  wf_tree fs -> makedirs p fs = (Ok tt, fs1) -> no_file_on fs p.
Proof.
  intros Hwf Hm q c Hq Hfile.
  pose proof (makedirs_rev_wf _ _ _ _ Hm Hwf) as Hwf1.
  pose proof (makedirs_rev_ok _ _ _ Hm) as [Hd _]. rewrite rev_involutive in Hd.
  pose proof (wf_tree_isdir_prefix _ _ _ Hwf1 Hd Hq) as Hdq.
  apply (makedirs_rev_extends _ _ _ _ Hm) in Hfile.
  unfold isdir in Hdq. by rewrite Hfile in Hdq.
Qed.





Lemma makedirs_rev_frame (rp : list string) :
  forall (fs fs' : tree) (r : result unit) (k : path),
    makedirs_rev rp fs = (r, fs') -> ¬ k `prefix_of` rev rp ->
    fs' !! k = fs !! k.
Proof.
  induction rp as [|tail rhead IH]; intros fs fs' r k Hm Hk.
  - simpl in Hm. eapply mkdir_exist_ok_other; [exact Hm|].
    intros ->. by apply Hk.
  - rewrite makedirs_rev_cons in Hm.
    assert (Hk' : ¬ k `prefix_of` rev rhead).
    { intros Hp. apply Hk. simpl. by apply prefix_app_r. }
    assert (Hhead : forall r1 fs1, makedirs_head rhead fs = (r1, fs1) ->
                                   fs1 !! k = fs !! k).
    { unfold makedirs_head. intros r1 fs1 Hh.
      destruct (negb (bool_decide (rhead = [])) && negb (exists_ fs (rev rhead)));
        [|by inversion Hh; subst].
      destruct (makedirs_rev rhead fs) as [[u|e] fs2] eqn:Hr.
      - inversion Hh; subst. eauto.
      - destruct (is_FileExistsError e); inversion Hh; subst; eauto. }
    destruct (makedirs_head rhead fs) as [[u|e] fs1] eqn:Hh.
    + rewrite <- (Hhead _ _ eq_refl). eapply mkdir_exist_ok_other; [exact Hm|].
      intros ->. by apply Hk.
    + inversion Hm; subst. eauto.
Qed.


End MoreDirectories.

(** ** Well-formed trees stay well formed *)

Lemma fs_lookup_insert_nil (fs : tree) (q : path) (n : node) :
  fs_lookup (<[[] := n]> fs) q = fs_lookup fs q.
Proof. destruct q; [reflexivity|]. unfold fs_lookup. by rewrite lookup_insert_ne. Qed.

Lemma insert_file_wf (fs : tree) (p : path) (c : string) :
  wf_tree fs -> isdir fs (parent p) = true -> isdir fs p = false ->
  wf_tree (<[p := File c]> fs).
Proof.
  intros Hwf Hpar Hp q n Hq.
  assert (Hne : p ≠ []) by (intros ->; discriminate).
  assert (Hkeep : forall k, isdir fs k = true -> isdir (<[p := File c]> fs) k = true).
  { intros k Hk. unfold isdir. rewrite fs_lookup_insert by done.
    destruct (decide (p = k)) as [->|]; [congruence|exact Hk]. }
  destruct (decide (q = p)) as [->|Hqp]; [by apply Hkeep|].
  rewrite lookup_insert_ne in Hq by done. eauto.
Qed.

Lemma overwrite_file_wf (fs : tree) (p : path) (c c' : string) :
  wf_tree fs -> fs !! p = Some (File c) -> wf_tree (<[p := File c']> fs).
Proof.
  intros Hwf Hp. destruct p as [|x p].
  - intros q n Hq. unfold isdir. rewrite fs_lookup_insert_nil.
    destruct (decide (q = [])) as [->|Hq0]; [reflexivity|].
    rewrite lookup_insert_ne in Hq by done. exact (Hwf _ _ Hq).
  - apply insert_file_wf; [assumption|exact (Hwf _ _ Hp)|].
    unfold isdir, fs_lookup. by rewrite Hp.
Qed.

Lemma open_w_wf (p : path) (fs fs' : tree) :
  open_w p fs = Ok fs' -> wf_tree fs -> wf_tree fs'.
Proof.
  unfold open_w. intros Ho Hwf.
  destruct (fs_lookup fs (parent p)) as [[|c]|] eqn:Hpar; try discriminate.
  assert (isdir fs (parent p) = true) by (unfold isdir; by rewrite Hpar).
  destruct (fs_lookup fs p) as [[|c]|] eqn:Hp; inversion Ho; subst;
    apply insert_file_wf; auto; unfold isdir; by rewrite Hp.
Qed.

Lemma open_a_wf (p : path) (fs fs' : tree) :
  open_a p fs = Ok fs' -> wf_tree fs -> wf_tree fs'.
Proof.
  unfold open_a. intros Ho Hwf.
  destruct (fs_lookup fs (parent p)) as [[|c]|] eqn:Hpar; try discriminate.
  assert (isdir fs (parent p) = true) by (unfold isdir; by rewrite Hpar).
  destruct (fs_lookup fs p) as [[|c]|] eqn:Hp; inversion Ho; subst; auto.
  apply insert_file_wf; auto; unfold isdir; by rewrite Hp.
Qed.

Lemma append_file_wf (p : path) (text : string) (fs : tree) :
  wf_tree fs -> wf_tree (append_file p text fs).
Proof.
  intros Hwf. unfold append_file.
  destruct (fs !! p) as [[|c]|] eqn:Hp; eauto using overwrite_file_wf.
Qed.

Section KeepsWf.
Context `{L : Libraries}.

Lemma keeps_wf_ret {A} (a : A) : keeps_wf (ret a).
Proof. intros st Hwf. exact Hwf. Qed.

Lemma keeps_wf_raise {A} (e : exn) : keeps_wf (@raise A e).
Proof. intros st Hwf. exact Hwf. Qed.

Lemma keeps_wf_lift {A} (r : result A) : keeps_wf (lift r).
Proof. intros st Hwf. exact Hwf. Qed.

Lemma keeps_wf_log (lvl : level) (msg : message) : keeps_wf (log lvl msg).
Proof. intros st Hwf. exact Hwf. Qed.

Lemma keeps_wf_fs_read {A} (f : tree -> result A) : keeps_wf (fs_read f).
Proof. intros st Hwf. exact Hwf. Qed.

Lemma keeps_wf_bind {A B} (m : M A) (k : A -> M B) :
  keeps_wf m -> (forall a, keeps_wf (k a)) -> keeps_wf (bind m k).
Proof.
  intros Hm Hk st Hwf. unfold bind. specialize (Hm st Hwf).
  destruct (m st) as [[a|e] st1]; [by apply Hk|exact Hm].
Qed.

Lemma keeps_wf_try_except {A} (body : M A) (handler : exn -> M A) :
  keeps_wf body -> (forall e, keeps_wf (handler e)) ->
  keeps_wf (try_except body handler).
Proof.
  intros Hm Hk st Hwf. unfold try_except. specialize (Hm st Hwf).
  destruct (body st) as [[a|e] st1]; [exact Hm|by apply Hk].
Qed.

Lemma keeps_wf_fs_update (f : tree -> result tree) :
  (forall fs fs', f fs = Ok fs' -> wf_tree fs -> wf_tree fs') ->
  keeps_wf (fs_update f).
Proof.
  intros Hf st Hwf. unfold fs_update.
  destruct (f (st_fs st)) as [fs'|e] eqn:E; [exact (Hf _ _ E Hwf)|exact Hwf].
Qed.

Lemma keeps_wf_write_out (p : path) (out : string * option exn) :
  keeps_wf (write_out p out).
Proof.
  intros st Hwf. unfold write_out.
  destruct (out.2); simpl; by apply append_file_wf.
Qed.

Lemma keeps_wf_os_makedirs (p : path) : keeps_wf (os_makedirs p).
Proof.
  intros st Hwf. unfold os_makedirs.
  destruct (makedirs p (st_fs st)) as [r fs1] eqn:Hm. simpl.
  exact (makedirs_rev_wf _ _ _ _ Hm Hwf).
Qed.

Lemma keeps_wf_get_size (p : path) : keeps_wf (get_size p).
Proof. intros st Hwf. by rewrite get_size_state. Qed.

Lemma keeps_wf_if {A} (b : bool) (m1 m2 : M A) :
  keeps_wf m1 -> keeps_wf m2 -> keeps_wf (if b then m1 else m2).
Proof. by destruct b. Qed.

Create HintDb keeps.
#[local] Hint Resolve keeps_wf_ret keeps_wf_raise keeps_wf_lift keeps_wf_log
  keeps_wf_fs_read keeps_wf_write_out keeps_wf_os_makedirs keeps_wf_get_size
  open_w_wf open_a_wf : keeps.
#[local] Hint Extern 1 (keeps_wf (logger_info _)) => apply keeps_wf_log : keeps.
#[local] Hint Extern 1 (keeps_wf (logger_warning _)) => apply keeps_wf_log : keeps.
#[local] Hint Extern 1 (keeps_wf (logger_error _)) => apply keeps_wf_log : keeps.

Ltac keeps :=
  repeat first
    [ apply keeps_wf_bind; [|intros ?]
    | apply keeps_wf_try_except; [|intros ?]
    | apply keeps_wf_fs_update
    | apply keeps_wf_if
    | solve [eauto with keeps] ].

Lemma keeps_wf_create_directories (ps : list path) (verbose : bool) :
  keeps_wf (create_directories ps verbose).
Proof. induction ps as [|p ps IH]; simpl; keeps. Qed.

Lemma keeps_wf_save_json (p : path) (d : dict) (indent : Z) :
  keeps_wf (save_json p d indent).
Proof. unfold save_json, json_dump. destruct (to_json (PDict d)); keeps. Qed.

Lemma keeps_wf_save_bin (data : pyval) (p : path) : keeps_wf (save_bin data p).
Proof. unfold save_bin. keeps. Qed.

Lemma keeps_wf_save_csv (df : DataFrame) (p : path) (kw : kwargs) :
  keeps_wf (save_csv df p kw).
Proof. unfold save_csv. keeps. Qed.

Lemma keeps_wf_save_model (model : pyval) (p : path) (metadata : option dict) :
  keeps_wf (save_model model p metadata).
Proof.
  unfold save_model. apply keeps_wf_bind; [apply keeps_wf_save_bin|intros _].
  destruct metadata as [d|]; [|keeps].
  apply keeps_wf_if; [|keeps].
  apply keeps_wf_bind; [apply keeps_wf_save_json|intros _; keeps].
Qed.

Lemma keeps_wf_setup_logger (name : string) (log_level : Z) (log_dir : path)
    (console_output : bool) (max_log_size backup_count : Z) (now : date) :
  keeps_wf (setup_logger name log_level log_dir console_output max_log_size
              backup_count now).
Proof. unfold setup_logger. keeps. Qed.

(** X13. Every helper that writes keeps the tree well formed -- each
    entry inside a directory of the tree -- whether it returns or
    raises: [create_directories], [save_json], [save_bin], [save_csv],
    [save_model] and [setup_logger]. *)
Theorem writers_keep_tree_well_formed (st : state) :
  wf_tree (st_fs st) ->
  (forall ps verbose, wf_tree (st_fs (create_directories ps verbose st).2))
  /\ (forall p d indent, wf_tree (st_fs (save_json p d indent st).2))
  /\ (forall data p, wf_tree (st_fs (save_bin data p st).2))
  /\ (forall df p kw, wf_tree (st_fs (save_csv df p kw st).2))
  /\ (forall model p metadata, wf_tree (st_fs (save_model model p metadata st).2))
  /\ (forall name log_level log_dir console_output max_log_size backup_count now,
        wf_tree (st_fs (setup_logger name log_level log_dir console_output
                          max_log_size backup_count now st).2)).
Proof.
  intros Hwf. repeat split; intros.
  - by apply keeps_wf_create_directories.
  - by apply keeps_wf_save_json.
  - by apply keeps_wf_save_bin.
  - by apply keeps_wf_save_csv.
  - by apply keeps_wf_save_model.
  - by apply keeps_wf_setup_logger.
Qed.

End KeepsWf.

(** ** More on the logger *)

Lemma open_a_extends (p : path) (fs fs' : tree) :
  open_a p fs = Ok fs' -> extends fs fs'.
Proof.
  unfold open_a. intros Ho.
  destruct (fs_lookup fs (parent p)) as [[|c]|]; try discriminate.
  destruct (fs_lookup fs p) as [[|c]|] eqn:Hp; inversion Ho; subst;
    [apply extends_refl|].
  intros q n Hq. rewrite fs_lookup_insert by eauto using fs_lookup_None_nonempty.
  destruct (decide (p = q)) as [->|]; congruence.
Qed.

Lemma open_a_again (p : path) (fs fs1 fs2 : tree) :
  open_a p fs = Ok fs1 -> extends fs1 fs2 -> open_a p fs2 = Ok fs2.
Proof.
  unfold open_a. intros Ho Hext.
  destruct (fs_lookup fs (parent p)) as [[|c]|] eqn:Hpar; try discriminate.
  assert (Hfile : exists c, fs_lookup fs1 p = Some (File c)
                            /\ fs_lookup fs1 (parent p) = Some Dir).
  { destruct (fs_lookup fs p) as [[|c]|] eqn:Hp; inversion Ho; subst; eauto.
    assert (Hne : p ≠ []) by eauto using fs_lookup_None_nonempty.
    exists "". rewrite !fs_lookup_insert by done. split; [by rewrite decide_True|].
    destruct (decide (p = parent p)) as [E|]; [|done]. congruence. }
  destruct Hfile as (c & Hp1 & Hpar1).
  by rewrite (Hext _ _ Hpar1), (Hext _ _ Hp1).
Qed.

(** X14. [setup_logger] never removes or empties anything: what was in
    the tree, a log file of the day included, is there unchanged after
    the call.  A second call with the same arguments on the same day
    returns the same logger and leaves the tree as the first call left
    it. *)
Theorem setup_logger_again (name : string) (log_level : Z) (log_dir : path)
    (console_output : bool) (max_log_size backup_count : Z) (now : date)
    (st st1 : state) (lg : Logger) :
  setup_logger name log_level log_dir console_output max_log_size backup_count
    now st = (Ok lg, st1) ->
  extends (st_fs st) (st_fs st1)
  /\ st_log st1 = st_log st
  /\ setup_logger name log_level log_dir console_output max_log_size backup_count
       now st1 = (Ok lg, st1).
Proof.
  unfold setup_logger, bind, os_makedirs, fs_update, ret. intros Hs.
  destruct (makedirs log_dir (st_fs st)) as [[[]|e] fs1] eqn:Hm; [|discriminate].
  simpl in Hs.
  destruct (open_a _ fs1) as [fs2|e] eqn:Ho; [|discriminate].
  inversion Hs; subst; clear Hs. simpl.
  pose proof (open_a_extends _ _ _ Ho) as Hext.
  split; [eauto using extends_trans, makedirs_extends|]. split; [reflexivity|].
  rewrite (makedirs_stable _ _ _ _ Hm Hext). simpl.
  rewrite (open_a_again _ _ _ _ Ho (extends_refl _)). reflexivity.
Qed.

(** X15. On a well-formed tree where the place of the day's log file
    is not a directory, [setup_logger] returns exactly when no regular
    file stands at [log_dir] or at one of its ancestors; otherwise it
    raises and builds no logger. *)
Theorem setup_logger_returns_iff (name : string) (log_level : Z) (log_dir : path)
    (console_output : bool) (max_log_size backup_count : Z) (now : date)
    (st : state) :
  wf_tree (st_fs st) ->
  isdir (st_fs st) (log_dir ++ [strftime_Ymd now +:+ ".log"])%list = false ->
  (exists lg st1,
     setup_logger name log_level log_dir console_output max_log_size
       backup_count now st = (Ok lg, st1))
  <-> no_file_on (st_fs st) log_dir.
Proof.
  intros Hwf Hnd. unfold setup_logger, bind, os_makedirs, fs_update, ret. split.
  - intros (lg & st1 & Hs).
    destruct (makedirs log_dir (st_fs st)) as [[[]|e] fs1] eqn:Hm; [|discriminate].
    eauto using makedirs_ok_no_file.
  - intros Hfree.
    destruct (makedirs_rev_succeeds (rev log_dir) (st_fs st)) as (fs1 & Hm).
    { by rewrite rev_involutive. }
    unfold makedirs. rewrite Hm. simpl.
    pose proof (makedirs_rev_ok _ _ _ Hm) as [Hd _]. rewrite rev_involutive in Hd.
    set (lp := (log_dir ++ [strftime_Ymd now +:+ ".log"])%list) in *.
    assert (Hne : lp ≠ []) by (unfold lp; by destruct log_dir).
    assert (Hpar : fs_lookup fs1 (parent lp) = Some Dir).
    { unfold lp, parent. rewrite removelast_last. unfold isdir in Hd.
      by destruct (fs_lookup fs1 log_dir) as [[|c]|]. }
    assert (Hlp : fs_lookup fs1 lp = fs_lookup (st_fs st) lp).
    { unfold fs_lookup. destruct lp as [|x l] eqn:E; [done|]. rewrite <- E.
      eapply makedirs_rev_frame; [exact Hm|]. rewrite rev_involutive.
      intros Hp. apply prefix_length in Hp. unfold lp in Hp.
      rewrite length_app in Hp. simpl in Hp. lia. }
    unfold open_a. rewrite Hpar, Hlp. unfold isdir in Hnd.
    destruct (fs_lookup (st_fs st) lp) as [[|c]|]; [discriminate|eauto..].
Qed.

(** ** More on the schema check *)

Section MoreValidation.
Context `{L : Libraries}.

Lemma bind_lift {A B} (r : result A) (k : A -> M B) (st : state) :
  bind (lift r) k st = match r with Ok a => k a st | Raise e => (Raise e, st) end.
Proof. unfold bind, lift. by destruct r. Qed.

Lemma in_columns_filter (df df' : DataFrame) (s : string) :
  filter (fun c => c.1 = s) (df_columns df')
  = filter (fun c => c.1 = s) (df_columns df) ->
  s ∈ (df_columns df').*1 -> s ∈ (df_columns df).*1.
Proof.
  intros Hf Hin. apply list_elem_of_fmap in Hin as (c & Hc & Hin).
  assert (Hc' : c ∈ filter (fun c => c.1 = s) (df_columns df'))
    by (apply list_elem_of_filter; auto).
  rewrite Hf in Hc'. apply list_elem_of_filter in Hc' as [_ Hc'].
  apply list_elem_of_fmap. eauto.
Qed.

Lemma in_columns_same (df df' : DataFrame) (s : string) :
  filter (fun c => c.1 = s) (df_columns df')
  = filter (fun c => c.1 = s) (df_columns df) ->
  in_columns (SStr s) df' = in_columns (SStr s) df.
Proof.
  intros Hf. unfold in_columns. apply bool_decide_ext.
  split; apply in_columns_filter; auto.
Qed.

Lemma check_dtypes_same (df df' : DataFrame) (items : list (scalar * pyval)) :
  (forall s expected, (SStr s, expected) ∈ items ->
     filter (fun c => c.1 = s) (df_columns df')
     = filter (fun c => c.1 = s) (df_columns df)) ->
  forall st, check_dtypes df' items st = check_dtypes df items st.
Proof.
  induction items as [|[col expected] items IH]; intros Hsame st; [reflexivity|].
  cbn [check_dtypes]. unfold bind.
  assert (Hhead : in_columns col df' = in_columns col df
                  /\ column_dtype col df' = column_dtype col df).
  { destruct col as [|b|z|s]; try done.
    pose proof (Hsame s expected (list_elem_of_here _ _)) as Hf.
    split; [by apply in_columns_same|]. unfold column_dtype. by rewrite Hf. }
  destruct Hhead as [-> ->].
  match goal with |- match ?m st with _ => _ end = _ => destruct (m st) as [[[]|e] st1] end;
    [|reflexivity].
  apply IH. intros s e He. apply (Hsame s e). by right.
Qed.

Lemma missing_same (df df' : DataFrame) (required : gset atom) :
  (forall s, AStr s ∈ required ->
     filter (fun c => c.1 = s) (df_columns df')
     = filter (fun c => c.1 = s) (df_columns df)) ->
  required ∖ columns_set df' = required ∖ columns_set df.
Proof.
  intros Hsame. apply leibniz_equiv. intros a.
  rewrite !elem_of_difference. unfold columns_set.
  rewrite !elem_of_list_to_set, !list_elem_of_fmap.
  split; intros [Hreq Hout]; (split; [assumption|]);
    intros (s & -> & Hs); apply Hout; exists s; (split; [reflexivity|]);
    eapply in_columns_filter; try exact Hs; by rewrite (Hsame s Hreq).
Qed.

(** X16. Columns of the frame that the schema does not name have no
    influence on the check: two frames that agree on the columns whose
    label is among [required_columns] or is a key of [dtypes] get the
    same result and the same log records.  The rows are never looked
    at. *)
Theorem validate_data_schema_named_columns_only (df df' : DataFrame)
    (schema_path : path) (st st1 : state) (schema : dict) :
  read_yaml schema_path st = (Ok schema, st1) ->
  (forall s, schema_names schema s ->
     filter (fun c => c.1 = s) (df_columns df')
     = filter (fun c => c.1 = s) (df_columns df)) ->
  validate_data_schema df' schema_path st = validate_data_schema df schema_path st.
Proof.
  intros Hread Hsame. unfold validate_data_schema.
  rewrite !(bind_Ok _ _ _ _ _ Hread). rewrite !bind_lift.
  destruct (box_getattr schema "required_columns") as [rc|e] eqn:Hrc; [|reflexivity].
  rewrite !bind_lift.
  destruct (py_set rc) as [required|e] eqn:Hset; [|reflexivity].
  rewrite (missing_same df df' required).
  2: { intros s Hs. apply Hsame. left. eauto. }
  destruct (negb (bool_decide (required ∖ columns_set df = ∅))); [reflexivity|].
  rewrite !bind_lift.
  destruct (box_getattr schema "dtypes") as [dt|e] eqn:Hdt; [|reflexivity].
  rewrite !bind_lift.
  destruct (dict_items dt) as [items|e] eqn:Hit; [|reflexivity].
  unfold bind at 1 3.
  rewrite (check_dtypes_same df df' items); [reflexivity|].
  intros s expected Hin. apply Hsame. right.
  destruct dt; try discriminate. inversion Hit; subst. eauto.
Qed.

(** X17. When [required_columns] of the schema is a string and not a
    list, [set] takes it apart: the columns asked for are its
    characters.  A character that heads no column makes the check
    raise, and everything reported missing is a single character of that
    string -- whether or not the frame has a column of that name. *)
Theorem validate_data_schema_required_as_string (df : DataFrame)
    (schema_path : path) (st st1 : state) (schema : dict) (s : string) (c : ascii) :
  read_yaml schema_path st = (Ok schema, st1) ->
  box_getattr schema "required_columns" = Ok (PStr s) ->
  c ∈ list_ascii_of_string s ->
  String c "" ∉ (df_columns df).*1 ->
  exists missing,
    validate_data_schema df schema_path st
    = (Raise (SchemaValueError missing), logged ERROR (MissingColumns missing) st1)
    /\ AStr (String c "") ∈ missing
    /\ forall a, a ∈ missing ->
         exists c', c' ∈ list_ascii_of_string s /\ a = AStr (String c' "").
Proof.
  intros Hread Hattr Hc Hout.
  set (required := list_to_set ((fun c => AStr (String c "")) <$> list_ascii_of_string s)
                   : gset atom).
  exists (required ∖ columns_set df).
  assert (Hin : AStr (String c "") ∈ required ∖ columns_set df).
  { apply elem_of_difference. split.
    - apply elem_of_list_to_set, list_elem_of_fmap. eauto.
    - unfold columns_set. rewrite elem_of_list_to_set, list_elem_of_fmap.
      intros (x & Hx & Hin). by inversion Hx; subst. }
  split; [|split; [exact Hin|]].
  - unfold validate_data_schema. rewrite (bind_Ok _ _ _ _ _ Hread).
    unfold bind, lift. rewrite Hattr. cbn [py_set]. fold required.
    rewrite bool_decide_eq_false_2; [reflexivity|].
    intros E. rewrite E in Hin. by apply not_elem_of_empty in Hin.
  - intros a Ha. apply elem_of_difference in Ha as [Ha _].
    apply elem_of_list_to_set, list_elem_of_fmap in Ha as (c' & -> & Hc').
    eauto.
Qed.

End MoreValidation.

(** ** The project template *)

Section TemplateFacts.
Import Template.

Lemma isdir_exists (fs : tree) (q : path) :
  isdir fs q = true -> exists_ fs q = true.
Proof. unfold isdir, exists_. by destruct (fs_lookup fs q) as [[|c]|]. Qed.

Lemma adds_dirs_refl (fs : tree) : adds_dirs fs fs.
Proof. intros q. by left. Qed.

Lemma adds_dirs_trans (fs1 fs2 fs3 : tree) :
  adds_dirs fs1 fs2 -> adds_dirs fs2 fs3 -> adds_dirs fs1 fs3.
Proof.
  intros H12 H23 q.
  destruct (H12 q) as [E12 | [N1 D2]], (H23 q) as [E23 | [N2 D3]].
  - left. congruence.
  - right. split; congruence.
  - right. split; congruence.
  - congruence.
Qed.

Lemma adds_dirs_extends (fs fs' : tree) : adds_dirs fs fs' -> extends fs fs'.
Proof. intros H q n Hq. destruct (H q) as [E | [N _]]; congruence. Qed.

Lemma adds_dirs_insert (fs : tree) (p : path) :
  fs_lookup fs p = None -> adds_dirs fs (<[p := Dir]> fs).
Proof.
  intros Hp q. rewrite fs_lookup_insert by eauto using fs_lookup_None_nonempty.
  destruct (decide (p = q)) as [<-|]; auto.
Qed.

Lemma mkdir_adds (p : path) (fs fs' : tree) :
  mkdir p fs = Ok fs' -> adds_dirs fs fs' /\ isdir fs' p = true.
Proof.
  unfold mkdir. intros Hm.
  destruct (fs_lookup fs (parent p)) as [[|c]|]; try discriminate.
  destruct (fs_lookup fs p) as [n|] eqn:Hp; inversion Hm; subst.
  split; [by apply adds_dirs_insert|].
  unfold isdir. rewrite fs_lookup_insert by eauto using fs_lookup_None_nonempty.
  by rewrite decide_True.
Qed.

Lemma Path_mkdir_self_adds (p : path) (fs fs' : tree) (r : result unit) :
  Path_mkdir_self p fs = (r, fs') ->
  adds_dirs fs fs' /\ (r = Ok tt -> isdir fs' p = true).
Proof.
  unfold Path_mkdir_self. intros Hm.
  destruct (mkdir p fs) as [fs1|e] eqn:Hmk.
  - inversion Hm; subst. apply mkdir_adds in Hmk as [? ?]. auto.
  - destruct (isdir fs p) eqn:Hd;
      destruct e; inversion Hm; subst; split; auto using adds_dirs_refl;
      discriminate.
Qed.

Lemma Path_mkdir_rev_adds (rp : list string) :
  forall (fs fs' : tree) (r : result unit),
    Path_mkdir_rev rp fs = (r, fs') ->
    adds_dirs fs fs' /\ (r = Ok tt -> isdir fs' (rev rp) = true).
Proof.
  induction rp as [|x rparent IH]; intros fs fs' r Hm.
  - simpl in Hm. inversion Hm; subst. split; [apply adds_dirs_refl|reflexivity].
  - cbn [Path_mkdir_rev] in Hm.
    destruct (mkdir (rev (x :: rparent)) fs) as [fs1|e] eqn:Hmk.
    + inversion Hm; subst. apply mkdir_adds in Hmk as [? ?]. auto.
    + assert (Hother : (if isdir fs (rev (x :: rparent))
                        then (Ok tt, fs) else (Raise e, fs)) = (r, fs') ->
                       adds_dirs fs fs'
                       /\ (r = Ok tt -> isdir fs' (rev (x :: rparent)) = true)).
      { destruct (isdir fs (rev (x :: rparent))) eqn:Hd; intros E;
          inversion E; subst; split; auto using adds_dirs_refl; discriminate. }
      destruct e; try (by apply Hother).
      destruct (Path_mkdir_rev rparent fs) as [[u|e] fs1] eqn:Hrec.
      * apply IH in Hrec as [Hadd _].
        apply Path_mkdir_self_adds in Hm as [Hadd' Hd].
        split; [eauto using adds_dirs_trans|exact Hd].
      * inversion Hm; subst. apply IH in Hrec as [Hadd _].
        split; [exact Hadd|discriminate].
Qed.

Lemma adds_dirs_exists (fs fs' : tree) (q : path) :
  adds_dirs fs fs' -> exists_ fs q = true -> exists_ fs' q = true.
Proof.
  unfold exists_. intros H Hq. destruct (H q) as [-> | [_ ->]]; auto.
Qed.

Lemma adds_dirs_isdir (fs fs' : tree) (q : path) :
  adds_dirs fs fs' -> isdir fs q = true -> isdir fs' q = true.
Proof.
  unfold isdir. intros H Hq. destruct (H q) as [-> | [_ ->]]; auto.
Qed.

Lemma adds_dirs_keeps (fs fs' : tree) : adds_dirs fs fs' -> keeps_content fs fs'.
Proof. intros H q n Hq _. by apply (adds_dirs_extends _ _ H). Qed.

Lemma keeps_content_refl (fs : tree) : keeps_content fs fs.
Proof. intros q n Hq _. exact Hq. Qed.

Lemma keeps_content_trans (fs1 fs2 fs3 : tree) :
  keeps_content fs1 fs2 -> keeps_content fs2 fs3 -> keeps_content fs1 fs3.
Proof. intros H12 H23 q n Hq Hn. eauto. Qed.

Lemma keeps_content_write (fs : tree) (p : path) (text : string) :
  p ≠ [] ->
  fs_lookup fs p = None \/ fs_lookup fs p = Some (File "") ->
  keeps_content fs (<[p := File text]> fs).
Proof.
  intros Hne Hp q n Hq Hn. rewrite fs_lookup_insert by done.
  destruct (decide (p = q)) as [<-|]; [|exact Hq].
  destruct Hp as [Hp | Hp]; congruence.
Qed.

Context `{L : Libraries}.

Lemma directory_round (p : path) (st : state) :
  exists fs1 log1 r1,
    (if negb (exists_ (files st) (parent p))
     then bind (Path_mkdir (parent p))
            (fun _ => logger_info (CreatedDirectory (parent p)))
     else ret tt) st
    = (r1, {| files := fs1; records := log1 |})
    /\ adds_dirs (files st) fs1
    /\ (exists_ (files st) (parent p) = true -> fs1 = files st)
    /\ (r1 = Ok tt -> exists_ fs1 (parent p) = true)
    /\ (r1 ≠ Ok tt -> exists_ (files st) (parent p) = false).
Proof.
  destruct (exists_ (files st) (parent p)) eqn:Hex; simpl.
  - exists (files st), (records st), (Ok tt). destruct st; simpl.
    repeat split; auto using adds_dirs_refl. done.
  - unfold bind, Path_mkdir.
    destruct (Path_mkdir_rev (rev (parent p)) (files st)) as [[[]|e] fsm] eqn:Hm;
      apply Path_mkdir_rev_adds in Hm as [Hadd Hd];
      rewrite rev_involutive in Hd; simpl.
    + eexists _, _, _. split; [reflexivity|]. simpl.
      split; [exact Hadd|]. split; [discriminate|]. split; [|done].
      intros _. specialize (Hd eq_refl). unfold isdir, exists_ in *.
      by destruct (fs_lookup fsm (parent p)) as [[|c]|].
    + eexists _, _, _. split; [reflexivity|]. simpl.
      split; [exact Hadd|]. split; [discriminate|]. split; [discriminate|done].
Qed.

Lemma file_round (current_date : string) (p : path) (st : state) :
  exists_ (files st) (parent p) = true ->
  let out :=
    bind (Path_exists p)
      (fun there =>
         bind (if negb there then ret true
               else bind (getsize p) (fun size => ret (size =? 0)))
           (fun fresh =>
              if fresh then
                bind (open_and_write p (written_text current_date p))
                  (fun _ => logger_info (CreatedFile p))
              else logger_info (FileExists p))) st in
  (files out.2 = files st /\ (exists e, out.1 = Raise e)
   /\ ((fs_lookup (files st) p = Some Dir /\ dir_st_size p = 0%N)
       \/ (isdir (files st) (parent p) = false
           /\ (fs_lookup (files st) p = None
               \/ fs_lookup (files st) p = Some (File "")))))
  \/ (files out.2 = files st /\ out.1 = Ok tt
      /\ ((fs_lookup (files st) p = Some Dir /\ dir_st_size p ≠ 0%N)
          \/ (exists c, fs_lookup (files st) p = Some (File c) /\ c ≠ "")))
  \/ (files out.2 = <[p := File (written_text current_date p)]> (files st)
      /\ out.1 = Ok tt /\ p ≠ []
      /\ isdir (files st) (parent p) = true
      /\ (fs_lookup (files st) p = None \/ fs_lookup (files st) p = Some (File ""))).
Proof.
  intros Hpar out. subst out.
  assert (Hwritten : forall fs : tree,
             append_file p (written_text current_date p) (<[p := File ""]> fs)
             = <[p := File (written_text current_date p)]> fs).
  { intros fs. unfold append_file. rewrite lookup_insert_eq.
    by rewrite insert_insert_eq. }
  unfold bind, Path_exists, getsize, ret, open_and_write, open_w, exists_, isdir.
  destruct (fs_lookup (files st) p) as [[|c]|] eqn:Hp; cbn [negb]; rewrite ?Hp.
  - (* a directory *)
    destruct (Z.of_N (dir_st_size p) =? 0) eqn:Hz; cbv beta iota; rewrite ?Hp.
    + left. apply Z.eqb_eq in Hz.
      assert (dir_st_size p = 0%N) by lia.
      destruct (fs_lookup (files st) (parent p)) as [[|c]|]; simpl; eauto 10.
    + right. left. simpl. repeat split; auto. left. split; [reflexivity|].
      apply Z.eqb_neq in Hz. lia.
  - (* a file *)
    assert (Hne : p ≠ []) by (intros E; rewrite E in Hp; discriminate).
    destruct (Z.of_nat (String.length c) =? 0) eqn:Hz; cbv beta iota; rewrite ?Hp.
    + apply Z.eqb_eq in Hz.
      assert (c = "") as -> by (destruct c; [done|simpl in Hz; lia]).
      destruct (fs_lookup (files st) (parent p)) as [[|c]|] eqn:Hpp; simpl;
        [|left; eauto 10..].
      right. right. rewrite Hwritten. auto 10.
    + right. left. simpl. repeat split; auto. right. exists c. split; [reflexivity|].
      intros ->. discriminate.
  - (* nothing there *)
    assert (Hne : p ≠ []) by eauto using fs_lookup_None_nonempty.
    cbv beta iota. rewrite ?Hp.
    destruct (fs_lookup (files st) (parent p)) as [[|c]|] eqn:Hpp; simpl;
      [|left; eauto 10..].
    right. right. rewrite Hwritten. auto 10.
Qed.

(** What one round of the loop does to the tree: directories are
    added, and then the file is left alone or written at a place that
    was free or held an empty file. *)
Lemma create_file_cases (current_date file : string) (st : state) :
  let out := create_file current_date file st in
  let p := Path file in
  exists fs1,
    adds_dirs (files st) fs1
    /\ (exists_ (files st) (parent p) = true -> fs1 = files st)
    /\ ((files out.2 = fs1 /\ (exists e, out.1 = Raise e)
         /\ (exists_ (files st) (parent p) = false
             \/ (fs_lookup fs1 p = Some Dir /\ dir_st_size p = 0%N)
             \/ (isdir fs1 (parent p) = false
                 /\ (fs_lookup fs1 p = None \/ fs_lookup fs1 p = Some (File "")))))
        \/ (files out.2 = fs1 /\ out.1 = Ok tt
            /\ exists_ fs1 (parent p) = true
            /\ ((fs_lookup fs1 p = Some Dir /\ dir_st_size p ≠ 0%N)
                \/ (exists c, fs_lookup fs1 p = Some (File c) /\ c ≠ "")))
        \/ (files out.2 = <[p := File (written_text current_date p)]> fs1
            /\ out.1 = Ok tt /\ p ≠ []
            /\ isdir fs1 (parent p) = true
            /\ (fs_lookup fs1 p = None \/ fs_lookup fs1 p = Some (File "")))).
Proof.
  intros out p.
  destruct (directory_round p st)
    as (fs1 & log1 & r1 & Hrun & Hadd & Hsame & Hpar & Hfail).
  exists fs1. split; [exact Hadd|]. split; [exact Hsame|].
  assert (Hout : out = match r1 with
                       | Ok _ =>
                           bind (Path_exists p)
                             (fun there =>
                                bind (if negb there then ret true
                                      else bind (getsize p) (fun size => ret (size =? 0)))
                                  (fun fresh =>
                                     if fresh then
                                       bind (open_and_write p (written_text current_date p))
                                         (fun _ => logger_info (CreatedFile p))
                                     else logger_info (FileExists p)))
                             {| files := fs1; records := log1 |}
                       | Raise e => (Raise e, {| files := fs1; records := log1 |})
                       end).
  { subst out. unfold create_file. fold p. unfold bind at 1, Path_exists at 1.
    unfold bind at 1. rewrite Hrun. by destruct r1. }
  rewrite Hout. destruct r1 as [[]|e]; [|left; simpl; eauto 10].
  specialize (Hpar eq_refl).
  destruct (file_round current_date p {| files := fs1; records := log1 |} Hpar)
    as [(? & ? & ?) | [(? & ? & ?) | H]]; auto 10.
Qed.

Lemma create_file_keeps (current_date file : string) (st : state) :
  keeps_content (files st) (files (create_file current_date file st).2).
Proof.
  destruct (create_file_cases current_date file st)
    as (fs1 & Hadd & _ & [(-> & _) | [(-> & _) | (-> & _ & Hne & _ & Hp)]]);
    eauto using adds_dirs_keeps, keeps_content_trans, keeps_content_write.
Qed.

Lemma create_files_keeps (current_date : string) (l : list string) :
  forall st, keeps_content (files st) (files (create_files current_date l st).2).
Proof.
  induction l as [|f l IH]; intros st; [apply keeps_content_refl|].
  simpl. unfold bind.
  pose proof (create_file_keeps current_date f st) as Hstep.
  destruct (create_file current_date f st) as [[[]|e] st1]; simpl in *;
    eauto using keeps_content_trans.
Qed.

(** X18. [create_project_structure] never changes what has content:
    every directory and every file that is not empty is after the run
    what it was before, whether the run returns or raises.  Only
    places that were free or held an empty file are written. *)
Theorem create_project_structure_keeps_content (now : date) (st : state)
    (q : path) (n : node) :
  fs_lookup (files st) q = Some n ->
  n ≠ File "" ->
  fs_lookup (files (create_project_structure now st).2) q = Some n.
Proof.
  revert q n. change (keeps_content (files st)
                        (files (create_project_structure now st).2)).
  unfold create_project_structure, try_except, bind.
  pose proof (create_files_keeps (strftime_Ymd now)
                (list_of_files (strftime_Ymd now)) st) as Hk.
  destruct (create_files _ _ st) as [[[]|e] st1]; exact Hk.
Qed.

Lemma settled_files (current_date file : string) (fs fs' : tree) :
  fs = fs' -> settled current_date fs file -> settled current_date fs' file.
Proof. by intros ->. Qed.

(** A round that returns leaves its file settled. *)
Lemma create_file_settles (current_date file : string) (st : state) :
  (create_file current_date file st).1 = Ok tt ->
  settled current_date (files (create_file current_date file st).2) file.
Proof.
  intros Hok.
  destruct (create_file_cases current_date file st)
    as (fs1 & Hadd & _ & [(_ & (e & He) & _) | [(-> & _ & Hpar & Hp) | (-> & _ & Hne & Hd & Hp)]]).
  - congruence.
  - split; [exact Hpar|]. destruct Hp as [Hp | Hp]; auto.
  - assert (Hpp : parent (Path file) ≠ Path file).
    { intros E. rewrite E in Hd. unfold isdir in Hd.
      destruct Hp as [Hp | Hp]; by rewrite Hp in Hd. }
    assert (Hd' : isdir (<[Path file := File (written_text current_date (Path file))]> fs1)
                    (parent (Path file)) = true).
    { unfold isdir. rewrite fs_lookup_insert by done. by rewrite decide_False. }
    split; [by apply isdir_exists|].
    right. rewrite fs_lookup_insert by done. rewrite decide_True by done.
    destruct (written_text current_date (Path file)) as [|a text] eqn:Htext.
    + right. auto.
    + left. eexists. split; [reflexivity|discriminate].
Qed.

(** No round unsettles a file. *)
Lemma create_file_keeps_settled (current_date file other : string) (st : state) :
  settled current_date (files st) other ->
  settled current_date (files (create_file current_date file st).2) other.
Proof.
  intros Hs.
  destruct (create_file_cases current_date file st) as (fs1 & Hadd & _ & Hcases).
  assert (Hs1 : settled current_date fs1 other).
  { destruct Hs as (Hpar & Hnode). split; [eauto using adds_dirs_exists|].
    pose proof (adds_dirs_extends _ _ Hadd) as Hext.
    destruct Hnode as [(Hp & Hz) | [(c & Hp & Hc) | (Hp & Ht & Hd)]].
    - left. auto.
    - right. left. eauto.
    - right. right. eauto using adds_dirs_isdir. }
  destruct Hcases as [(-> & _) | [(-> & _) | (-> & _ & Hne & Hd & Hp)]];
    [exact Hs1..|].
  set (p := Path file) in *. set (q := Path other).
  destruct Hs1 as (Hpar & Hnode). fold q in Hpar, Hnode.
  assert (Hex : forall k, exists_ fs1 k = true ->
                  exists_ (<[p := File (written_text current_date p)]> fs1) k = true).
  { intros k Hk. unfold exists_. rewrite fs_lookup_insert by done.
    by destruct (decide (p = k)). }
  assert (Hdir : forall k, isdir fs1 k = true ->
                  isdir (<[p := File (written_text current_date p)]> fs1) k = true).
  { intros k Hk. unfold isdir in *. rewrite fs_lookup_insert by done.
    destruct (decide (p = k)) as [<-|]; [|exact Hk].
    destruct Hp as [Hp | Hp]; by rewrite Hp in Hk. }
  split; [by apply Hex|]. fold q. rewrite fs_lookup_insert by done.
  destruct (decide (p = q)) as [Hpq|Hpq].
  - rewrite <- Hpq in *.
    destruct Hnode as [(Hq & _) | [(c & Hq & Hc) | (Hq & Ht & Hdq)]].
    + destruct Hp; congruence.
    + destruct Hp; congruence.
    + right. right. split; [by rewrite Ht|]. split; [exact Ht|by apply Hdir].
  - destruct Hnode as [? | [? | (Hq & Ht & Hdq)]]; auto.
    right. right. auto.
Qed.

Lemma create_files_keep_settled (current_date other : string) (l : list string) :
  forall st,
    settled current_date (files st) other ->
    settled current_date (files (create_files current_date l st).2) other.
Proof.
  induction l as [|f l IH]; intros st Hs; [exact Hs|].
  simpl. unfold bind.
  pose proof (create_file_keeps_settled current_date f other st Hs) as Hstep.
  destruct (create_file current_date f st) as [[[]|e] st1]; simpl in *; auto.
Qed.

Lemma create_files_settle (current_date : string) (l : list string) :
  forall st,
    (create_files current_date l st).1 = Ok tt ->
    forall f, f ∈ l ->
      settled current_date (files (create_files current_date l st).2) f.
Proof.
  induction l as [|f l IH]; intros st Hok g Hg; [by apply elem_of_nil in Hg|].
  simpl in *. unfold bind in *.
  pose proof (create_file_settles current_date f st) as Hstep.
  destruct (create_file current_date f st) as [[[]|e] st1]; simpl in *;
    [|discriminate].
  apply elem_of_cons in Hg as [-> | Hg]; [|by apply IH].
  apply create_files_keep_settled. by apply Hstep.
Qed.

(** A round on a settled file returns and leaves the tree as it is. *)
Lemma create_file_settled (current_date file : string) (st : state) :
  settled current_date (files st) file ->
  (create_file current_date file st).1 = Ok tt
  /\ files (create_file current_date file st).2 = files st.
Proof.
  intros (Hpar & Hnode).
  destruct (create_file_cases current_date file st) as (fs1 & _ & Hsame & Hcases).
  specialize (Hsame Hpar). subst fs1.
  set (p := Path file) in *.
  destruct Hcases as [(_ & _ & Hwhy) | [(-> & -> & _) | (-> & -> & Hne & Hd & Hp)]].
  - exfalso.
    destruct Hwhy as [Hno | [(Hp & Hz) | (Hd & Hp)]]; [congruence| |];
      destruct Hnode as [(Hq & Hnz) | [(c & Hq & Hc) | (Hq & Ht & Hdq)]];
      try congruence; destruct Hp; congruence.
  - done.
  - split; [reflexivity|].
    destruct Hnode as [(Hq & _) | [(c & Hq & Hc) | (Hq & Ht & Hdq)]];
      [destruct Hp; congruence..|].
    rewrite Ht. apply insert_id. unfold fs_lookup in Hq. by destruct p.
Qed.

Lemma create_files_settled (current_date : string) (l : list string) :
  forall st,
    (forall f, f ∈ l -> settled current_date (files st) f) ->
    (create_files current_date l st).1 = Ok tt
    /\ files (create_files current_date l st).2 = files st.
Proof.
  induction l as [|f l IH]; intros st Hall; [done|].
  simpl. unfold bind.
  destruct (create_file_settled current_date f st) as [Hok Hfs];
    [apply Hall; left|].
  destruct (create_file current_date f st) as [[[]|e] st1]; simpl in *;
    [|discriminate].
  destruct (IH st1) as [Hok1 Hfs1].
  - intros g Hg. rewrite Hfs. apply Hall. by right.
  - split; [exact Hok1|congruence].
Qed.

(** X19. When [create_project_structure] returns, every listed path
    is in the tree together with its directory, and no listed file is
    left empty unless nothing is written into files of its kind; the
    last record of the log is the one of success.  When it raises, the
    last record is the error record of the exception it raises. *)
Theorem create_project_structure_outcome (now : date) (st : state) :
  let out := create_project_structure now st in
  (out.1 = Ok tt ->
   (forall file, file ∈ list_of_files (strftime_Ymd now) ->
      exists_ (files out.2) (Path file) = true
      /\ exists_ (files out.2) (parent (Path file)) = true
      /\ (fs_lookup (files out.2) (Path file) = Some (File "") ->
          written_text (strftime_Ymd now) (Path file) = ""))
   /\ exists earlier, records out.2 = (earlier ++ [(INFO, StructureCreated)])%list)
  /\ (forall e, out.1 = Raise e ->
      exists earlier, records out.2 = (earlier ++ [(ERROR, StructureError e)])%list).
Proof.
  intros out. subst out. unfold create_project_structure, try_except, bind.
  pose proof (create_files_settle (strftime_Ymd now)
                (list_of_files (strftime_Ymd now)) st) as Hs.
  destruct (create_files _ _ st) as [[[]|e] st1]; simpl in *.
  - split; [|discriminate]. intros _. split; [|eauto].
    intros file Hin. destruct (Hs eq_refl file Hin) as (Hpar & Hnode).
    unfold exists_.
    destruct Hnode as [(-> & _) | [(c & -> & Hc) | (-> & Ht & _)]];
      repeat split; auto; intros E; inversion E; congruence.
  - split; [discriminate|]. intros e' E. inversion E; subst. eauto.
Qed.

(** X20. Running [create_project_structure] again on the same day,
    after a run that returned, returns and leaves the tree as the
    first run left it. *)
Theorem create_project_structure_again (now : date) (st st1 : state) :
  create_project_structure now st = (Ok tt, st1) ->
  (create_project_structure now st1).1 = Ok tt
  /\ files (create_project_structure now st1).2 = files st1.
Proof.
  unfold create_project_structure.
  set (cd := strftime_Ymd now). set (l := list_of_files cd). intros Hfirst.
  pose proof (create_files_settle cd l st) as Hs.
  assert (Hfs1 : (create_files cd l st).1 = Ok tt
                 /\ files st1 = files (create_files cd l st).2).
  { unfold try_except, bind, logger_info, logger_error, raise in Hfirst.
    destruct (create_files cd l st) as [[[]|e] st0];
      inversion Hfirst; subst; auto. }
  destruct Hfs1 as [Hok1 Hfs1]. specialize (Hs Hok1). rewrite <- Hfs1 in Hs.
  destruct (create_files_settled cd l st1 Hs) as [Hok Hfs].
  unfold try_except, bind, logger_info.
  destruct (create_files cd l st1) as [[[]|e] st2]; cbn [fst snd] in *;
    [done|discriminate].
Qed.

End TemplateFacts.

(** ** The further properties on concrete inputs *)

#[local] Existing Instance Ref.libraries.

(** X1: the keys [1] and ['1'] share a member name; the later item
    wins. *)
Lemma load_json_after_save_json_witness :
  exists st1 d',
    save_json ["data.json"] [(SInt 1, PStr "a"); (SStr "1", PStr "b")] 4 empty_state
    = (Ok tt, st1)
    /\ load_json ["data.json"] st1
       = (Ok d', logged INFO (JsonLoaded ["data.json"]) st1)
    /\ d' = [(SStr "1", PStr "b")]
    /\ json_faithful (PDict d') = true.
Proof.
  destruct (load_json_after_save_json ["data.json"]
              [(SInt 1, PStr "a"); (SStr "1", PStr "b")] 4 empty_state
              (JObj [("1", JStr "a"); ("1", JStr "b")]))
    as (st1 & d' & Hsave & Hload & Hd & Hf).
  - apply writable_empty.
  - vm_compute. reflexivity.
  - vm_compute. reflexivity.
  - vm_compute. reflexivity.
  - exists st1, d'. split; [exact Hsave|]. split; [exact Hload|].
    split; [rewrite Hd; vm_compute; reflexivity|exact Hf].
Defined.


(** X4 on an empty tree. *)
Lemma load_missing_file_witness :
  let p := ["model.joblib"] in
  let e := FileNotFoundError p in
  load_json p empty_state = (Raise e, empty_state)
  /\ load_bin p empty_state = (Raise e, empty_state)
  /\ (forall kw, load_csv p kw empty_state = (Raise e, empty_state))
  /\ load_model p empty_state = (Raise e, empty_state)
  /\ get_size p empty_state = (Raise e, empty_state)
  /\ read_yaml p empty_state
     = (Raise e, logged ERROR (YamlReadError p e) empty_state)
  /\ (forall df, validate_data_schema df p empty_state
                 = (Raise e, logged ERROR (YamlReadError p e) empty_state)).
Proof.
  intros p e. apply (load_missing_file p empty_state); reflexivity.
Defined.





(** X9: the dictionary of the [__main__] block, and the empty one. *)
Lemma read_yaml_after_save_json_witness :
  (exists st1,
      save_json ["test_config.yaml"] [(SStr "test_key", PStr "test_value")] 4
        empty_state = (Ok tt, st1)
      /\ read_yaml ["test_config.yaml"] st1
         = (Ok [(SStr "test_key", PStr "test_value")],
            logged INFO (YamlLoaded ["test_config.yaml"]) st1))
  /\ (exists st1,
         save_json ["test_config.yaml"] [] 4 empty_state = (Ok tt, st1)
         /\ (read_yaml ["test_config.yaml"] st1).1
            = Raise (BoxValueError "YAML file is empty")).
Proof.
  split.
  - destruct (read_yaml_after_save_json ["test_config.yaml"]
                [(SStr "test_key", PStr "test_value")] 4 empty_state
                (JObj [("test_key", JStr "test_value")]))
      as (st1 & Hsave & Hfull & _).
    + apply writable_empty.
    + reflexivity.
    + vm_compute. reflexivity.
    + vm_compute. reflexivity.
    + exists st1. split; [exact Hsave|].
      destruct Hfull as (d' & Hd & Hread); [discriminate|].
      rewrite Hread. vm_compute in Hd. by inversion Hd.
  - destruct (read_yaml_after_save_json ["test_config.yaml"] [] 4 empty_state
                (JObj []))
      as (st1 & Hsave & _ & Hempty).
    + apply writable_empty.
    + reflexivity.
    + vm_compute. reflexivity.
    + vm_compute. reflexivity.
    + exists st1. split; [exact Hsave|]. by apply Hempty.
Defined.




(** X13 on an empty tree. *)
Lemma writers_keep_tree_well_formed_witness :
  wf_tree (st_fs (create_directories [["artifacts"; "models"]] true empty_state).2)
  /\ wf_tree (st_fs (save_model (PObj 1) ["model.joblib"]
                       (Some [(SStr "k", PObj 2)]) empty_state).2).
Proof.
  destruct (writers_keep_tree_well_formed empty_state wf_tree_empty)
    as (Hdirs & _ & _ & _ & Hmodel & _).
  split; [apply Hdirs|apply Hmodel].
Defined.

(** X14 with the defaults of the source, twice on one day. *)
Lemma setup_logger_again_witness :
  let now := {| year := 2026; month := 11; day := 4 |} in
  let first := setup_logger "luxottica_churn" 20 ["logs"] true 10 5 now empty_state in
  exists lg,
    first.1 = Ok lg
    /\ setup_logger "luxottica_churn" 20 ["logs"] true 10 5 now first.2
       = (Ok lg, first.2).
Proof.
  intros now first. eexists.
  assert (Hok : first.1 = Ok _) by (vm_compute; reflexivity).
  split; [exact Hok|].
  refine (proj2 (proj2 (setup_logger_again "luxottica_churn" 20 ["logs"] true 10 5
                          now empty_state first.2 _ _))).
  fold first. rewrite <- Hok. apply surjective_pairing.
Defined.

(** X15: a file named [logs] in the working directory. *)
Lemma setup_logger_returns_iff_witness :
  let now := {| year := 2026; month := 11; day := 4 |} in
  let st := one_file ["logs"] "" in
  (exists lg st1,
      setup_logger "luxottica_churn" 20 ["logs"] true 10 5 now st = (Ok lg, st1))
  <-> no_file_on (st_fs st) ["logs"].
Proof.
  intros now st.
  apply (setup_logger_returns_iff "luxottica_churn" 20 ["logs"] true 10 5 now st).
  - intros p n Hp. unfold st in Hp. simpl in Hp.
    apply lookup_singleton_Some in Hp as [<- _]. reflexivity.
  - reflexivity.
Defined.

(** X16: one more column, which the schema of the docstring does not
    name. *)
Lemma validate_data_schema_named_columns_only_witness :
  let df := frame_of [("customer_id", "object"); ("last_purchase_date", "object");
                      ("churn", "int64")] in
  let df' := frame_of [("customer_id", "object"); ("age", "int64");
                       ("last_purchase_date", "object"); ("churn", "int64")] in
  let st := one_file ["schema.yaml"] sample_schema in
  validate_data_schema df' ["schema.yaml"] st
  = validate_data_schema df ["schema.yaml"] st.
Proof.
  intros df df' st.
  apply (validate_data_schema_named_columns_only df df' ["schema.yaml"] st
           (logged INFO (YamlLoaded ["schema.yaml"]) st)
           [(SStr "required_columns",
             PList [PStr "customer_id"; PStr "last_purchase_date"]);
            (SStr "dtypes",
             PDict [(SStr "customer_id", PStr "str"); (SStr "churn", PStr "int")])]).
  - vm_compute. reflexivity.
  - intros s [(rc & required & Hrc & Hset & Hin) | (items & expected & Hdt & Hin)].
    + cbv in Hrc. inversion Hrc; subst. simpl in Hset. inversion Hset; subst.
      apply elem_of_union in Hin as [Hin | Hin];
        [|apply elem_of_union in Hin as [Hin | Hin]].
      * apply elem_of_singleton in Hin. inversion Hin; subst. reflexivity.
      * apply elem_of_singleton in Hin. inversion Hin; subst. reflexivity.
      * by apply not_elem_of_empty in Hin.
    + cbv in Hdt. inversion Hdt; subst.
      repeat (apply elem_of_cons in Hin as [Hin | Hin];
              [inversion Hin; subst; reflexivity|]).
      by apply elem_of_nil in Hin.
Defined.

(** X17: [required_columns: churn] in place of a list, and a frame
    whose only column is [churn]. *)
Lemma validate_data_schema_required_as_string_witness :
  let st := one_file ["schema.yaml"]
              (Ref.json_text 4 (JObj [("required_columns", JStr "churn")])) in
  exists missing,
    validate_data_schema churn_frame ["schema.yaml"] st
    = (Raise (SchemaValueError missing),
       logged ERROR (MissingColumns missing)
         (logged INFO (YamlLoaded ["schema.yaml"]) st))
    /\ AStr "c" ∈ missing
    /\ forall a, a ∈ missing ->
         exists c', c' ∈ list_ascii_of_string "churn" /\ a = AStr (String c' "").
Proof.
  intros st.
  apply (validate_data_schema_required_as_string churn_frame ["schema.yaml"] st
           (logged INFO (YamlLoaded ["schema.yaml"]) st)
           [(SStr "required_columns", PStr "churn")] "churn" "c"%char).
  - vm_compute. reflexivity.
  - reflexivity.
  - simpl. left.
  - simpl. intros Hin. apply list_elem_of_singleton in Hin. discriminate.
Defined.

(** X18: a [main.py] that is there already. *)
Lemma create_project_structure_keeps_content_witness :
  let now := {| year := 2026; month := 11; day := 4 |} in
  let st := {| Template.files := {[ ["main.py"] := File "print(1)" ]};
               Template.records := [] |} in
  fs_lookup (Template.files (Template.create_project_structure now st).2) ["main.py"]
  = Some (File "print(1)").
Proof.
  intros now st.
  apply (create_project_structure_keeps_content now st ["main.py"] (File "print(1)")).
  - reflexivity.
  - discriminate.
Defined.

(** X19 on an empty tree. *)
Lemma create_project_structure_outcome_witness :
  let now := {| year := 2026; month := 11; day := 4 |} in
  let out := Template.create_project_structure now
               {| Template.files := ∅; Template.records := [] |} in
  out.1 = Ok tt
  /\ exists_ (Template.files out.2)
       (Template.Path "src/luxottica_churn/utils/common.py") = true
  /\ exists_ (Template.files out.2)
       (Template.Path "research/2026-11-04_eda.ipynb") = true.
Proof.
  intros now out.
  assert (Hok : out.1 = Ok tt) by (vm_compute; reflexivity).
  split; [exact Hok|].
  destruct (create_project_structure_outcome now
              {| Template.files := ∅; Template.records := [] |})
    as ((Hall & _) & _); [exact Hok|].
  assert (Hcommon : "src/luxottica_churn/utils/common.py"
                    ∈ Template.list_of_files (strftime_Ymd now))
    by (apply (bool_decide_unpack _); vm_compute; reflexivity).
  assert (Heda : "research/2026-11-04_eda.ipynb"
                 ∈ Template.list_of_files (strftime_Ymd now))
    by (apply (bool_decide_unpack _); vm_compute; reflexivity).
  destruct (Hall _ Hcommon) as (Hthere & _).
  destruct (Hall _ Heda) as (Hthere' & _).
  split; [exact Hthere|exact Hthere'].
Defined.

(** X20 on an empty tree. *)
Lemma create_project_structure_again_witness :
  let now := {| year := 2026; month := 11; day := 4 |} in
  let first := Template.create_project_structure now
                 {| Template.files := ∅; Template.records := [] |} in
  first.1 = Ok tt
  /\ (Template.create_project_structure now first.2).1 = Ok tt
  /\ Template.files (Template.create_project_structure now first.2).2
     = Template.files first.2.
Proof.
  intros now first.
  assert (Hok : first.1 = Ok tt) by (vm_compute; reflexivity).
  split; [exact Hok|].
  apply (create_project_structure_again now
           {| Template.files := ∅; Template.records := [] |} first.2).
  fold first. rewrite <- Hok. apply surjective_pairing.
Defined.

(** The files a first run writes on an empty tree. *)
Example create_project_structure_on_empty_tree :
  let now := {| year := 2026; month := 11; day := 4 |} in
  let out := Template.create_project_structure now
               {| Template.files := ∅; Template.records := [] |} in
  Template.files out.2 !! ["main.py"]
  = Some (File (Template.py_header "2026-11-04"))
  /\ Template.files out.2 !! ["Dockerfile"] = Some (File Template.dockerfile_text)
  /\ Template.files out.2 !! ["requirements.txt"] = Some (File "")
  /\ Template.files out.2 !! ["src"; "luxottica_churn"; "utils"] = Some Dir
  /\ Template.suffix [".gitignore"] = ""
  /\ Template.files out.2 !! [".gitignore"] = Some (File "").
Proof. vm_compute. repeat split; reflexivity. Qed.
